(** * 5G NR frame structure visualizer: the computation engine

    A shallow embedding of the pure calculations of [frame_structure.py]:
    the numerology helper [get_slot_params], the mask generators
    [create_dmrs_pattern] and [create_pdcch_region], the resource grid block
    and the TDD configuration block.

    Python integers are [Z].  The floats of the numerology and of the slot
    count are modelled by exact rationals [Q]: each of them is a dyadic
    rational of small size (a periodicity from the selectbox, [1.0 / 2**mu]),
    on which float arithmetic is exact.  The percentages of the TDD block are
    IEEE 754 binary64 numbers, [spec_float] with 53 bits of precision, rounded
    to nearest even as Python's doubles are.  A numpy 2-D array is a list of
    rows.  Python exceptions are values of [exn], threaded through
    [result]. *)

From Stdlib Require Import ZArith QArith Qround Lia DecimalString SpecFloat.
From stdpp Require Import base list gmap strings.

Local Open Scope string_scope.
Local Open Scope list_scope.
Local Open Scope Z_scope.

(** ** Exceptions and results *)

Inductive exn : Type :=
  | KeyError (key : Z)
  | IndexError
  | ValueError
  | ZeroDivisionError
  | OverflowError.

Inductive result (A : Type) : Type :=
  | Ok (a : A)
  | Raise (e : exn).
Arguments Ok {A} a.
Arguments Raise {A} e.

#[global] Instance result_bind : MBind result := fun A B k r =>
  match r with
  | Ok a => k a
  | Raise e => Raise e
  end.

Definition returns {A} (r : result A) : Prop := exists a, r = Ok a.

(** A [for x in xs: body] loop over a state that may raise. *)
Fixpoint for_each {A S} (xs : list A) (body : A -> S -> result S) (s : S)
  : result S :=
  match xs with
  | [] => Ok s
  | x :: xs' => s' ← body x s; for_each xs' body s'
  end.

(** ** Numerology: [get_slot_params] *)

Record slot_params : Type := {
  mu : Z;
  slot_duration_ms : Q;
  slots_per_subframe : Z;
  slots_per_frame : Z;
  symbols_per_slot : Z
}.

Definition mu_map : gmap Z Z :=
  <[15 := 0]> (<[30 := 1]> (<[60 := 2]> (<[120 := 3]> (<[240 := 4]> ∅)))).

Definition get_slot_params (scs_khz : Z) : result slot_params :=
  match mu_map !! scs_khz with
  | None => Raise (KeyError scs_khz)
  | Some mu =>
      let slot_duration_ms := (1 / inject_Z (2 ^ mu))%Q in
      let slots_per_subframe := 2 ^ mu in
      let slots_per_frame := 10 * slots_per_subframe in
      Ok {| mu := mu;
            slot_duration_ms := slot_duration_ms;
            slots_per_subframe := slots_per_subframe;
            slots_per_frame := slots_per_frame;
            symbols_per_slot := 14 |}
  end.

Definition supported_scs : list Z := [15; 30; 60; 120; 240].

(** ** TDD configuration block *)

(** Python's [int(x)] on a float truncates toward zero. *)
Definition int_of_float (x : Q) : Z := Z.quot (Qnum x) (Zpos (Qden x)).

(** True division [a / b]; a zero divisor raises. *)
Definition truediv (a b : Q) : result Q :=
  if Qeq_bool b 0 then Raise ZeroDivisionError else Ok (a / b)%Q.

(** The text an f-string puts for an integer. *)
Definition str (n : Z) : string := NilZero.string_of_int (Z.to_int n).

(** [for _ in range(n): slot_pattern.append(label)], with [n] iterations
    left. *)
Fixpoint append_times (n : nat) (label : string) (slot_pattern : list string)
  : list string :=
  match n with
  | O => slot_pattern
  | S n' => append_times n' label (slot_pattern ++ [label])
  end.

(** [while len(slot_pattern) < slots_in_period: slot_pattern.append('F')].
    Each iteration tests the loop condition; [fuel] bounds the iterations. *)
Fixpoint pad_flexible (fuel : nat) (slots_in_period : Z)
    (slot_pattern : list string) : list string :=
  match fuel with
  | O => slot_pattern
  | S fuel' =>
      if Z.of_nat (length slot_pattern) <? slots_in_period
      then pad_flexible fuel' slots_in_period (slot_pattern ++ ["F"])
      else slot_pattern
  end.

(** The variables the pattern code leaves behind.  [guard] and [partial] are
    bound only when the partial-slot branch runs. *)
Record tdd_state : Type := {
  slots_in_period : Z;
  slot_pattern : list string;
  guard : option Z;
  partial : option string
}.

Definition has_partial (num_dl_symbols num_ul_symbols : Z) : bool :=
  (0 <? num_dl_symbols) || (0 <? num_ul_symbols).

(** Lines 1655-1677; [slot_duration_ms] stands for
    [params_tdd['slot_duration_ms']]. *)
Definition synthesize_tdd (tdd_periodicity_ms slot_duration_ms : Q)
    (num_dl_slots num_dl_symbols num_ul_slots num_ul_symbols : Z)
  : result tdd_state :=
  q ← truediv tdd_periodicity_ms slot_duration_ms;
  let slots_in_period := int_of_float q in
  let slot_pattern := [] in
  let slot_pattern := append_times (Z.to_nat num_dl_slots) "D" slot_pattern in
  let '(slot_pattern, guard, partial) :=
    if has_partial num_dl_symbols num_ul_symbols then
      let guard := 14 - num_dl_symbols - num_ul_symbols in
      let partial :=
        "D" +:+ str num_dl_symbols +:+ "G" +:+ str guard
            +:+ "U" +:+ str num_ul_symbols in
      (slot_pattern ++ ["X"], Some guard, Some partial)
    else (slot_pattern, None, None) in
  let slot_pattern := append_times (Z.to_nat num_ul_slots) "U" slot_pattern in
  let slot_pattern :=
    pad_flexible (Z.to_nat slots_in_period) slots_in_period slot_pattern in
  Ok {| slots_in_period := slots_in_period;
        slot_pattern := slot_pattern;
        guard := guard;
        partial := partial |}.

(** A slice [l[:n]]. *)
Definition slice_to {A} (n : Z) (l : list A) : list A :=
  if 0 <=? n then take (Z.to_nat n) l
  else take (length l - Z.to_nat (- n)) l.

(** The pattern as it is drawn and printed: [slot_pattern[:slots_in_period]]. *)
Definition shown_pattern (st : tdd_state) : list string :=
  slice_to (slots_in_period st) (slot_pattern st).

(** ** Python floats in the percentages *)

(** An integer as the exact operand of a division. *)
Definition exact_int (n : Z) : spec_float :=
  match n with
  | Z0 => S754_zero false
  | Zpos m => S754_finite false m 0
  | Zneg m => S754_finite true m 0
  end.

(** A rounded result that left the range of the doubles raises. *)
Definition finite_or_overflow (x : spec_float) : result spec_float :=
  match x with
  | S754_infinity _ => Raise OverflowError
  | _ => Ok x
  end.

(** [float(n)]: the nearest double; an integer beyond the doubles raises. *)
Definition float_of_int (n : Z) : result spec_float :=
  finite_or_overflow (binary_normalize 53 1024 n 0 false).

(** [a / b] on two integers: the correctly rounded quotient; a zero divisor
    raises, and so does a quotient beyond the doubles. *)
Definition int_truediv (a b : Z) : result spec_float :=
  if b =? 0 then Raise ZeroDivisionError
  else finite_or_overflow (SFdiv 53 1024 (exact_int a) (exact_int b)).

(** [x - y] on two floats. *)
Definition float_sub (x y : spec_float) : spec_float := SFsub 53 1024 x y.

(** Lines 1750-1756. *)
Record distribution : Type := {
  total_dl_symbols : Z;
  total_ul_symbols : Z;
  total_symbols : Z;
  dl_pct : spec_float;
  ul_pct : spec_float;
  guard_pct : spec_float
}.

Definition resource_distribution (slots_in_period : Z)
    (num_dl_slots num_dl_symbols num_ul_slots num_ul_symbols : Z)
  : result distribution :=
  let total_dl_symbols := num_dl_slots * 14 + num_dl_symbols in
  let total_ul_symbols := num_ul_slots * 14 + num_ul_symbols in
  let total_symbols := slots_in_period * 14 in
  dl_pct ← int_truediv (100 * total_dl_symbols) total_symbols;
  ul_pct ← int_truediv (100 * total_ul_symbols) total_symbols;
  hundred ← float_of_int 100;
  let guard_pct := float_sub (float_sub hundred dl_pct) ul_pct in
  Ok {| total_dl_symbols := total_dl_symbols;
        total_ul_symbols := total_ul_symbols;
        total_symbols := total_symbols;
        dl_pct := dl_pct;
        ul_pct := ul_pct;
        guard_pct := guard_pct |}.

(** The whole block, from the widgets' values. *)
Definition tdd_configuration (tdd_periodicity_ms : Q)
    (num_dl_slots num_dl_symbols num_ul_slots num_ul_symbols scs_tdd : Z)
  : result (tdd_state * distribution) :=
  params_tdd ← get_slot_params scs_tdd;
  st ← synthesize_tdd tdd_periodicity_ms (slot_duration_ms params_tdd)
         num_dl_slots num_dl_symbols num_ul_slots num_ul_symbols;
  dist ← resource_distribution (slots_in_period st)
         num_dl_slots num_dl_symbols num_ul_slots num_ul_symbols;
  Ok (st, dist).

(** ** numpy arrays: the 2-D grids *)

(** A 2-D array is the list of its rows; [grid[r, c]] is [cell grid r c]. *)
Abbreviation grid := (list (list Z)).

Definition cell (g : grid) (r c : nat) : option Z :=
  match g !! r with
  | Some row => row !! c
  | None => None
  end.

(** [np.zeros((rows, cols))]; a negative dimension raises. *)
Definition np_zeros (rows cols : Z) : result grid :=
  if (rows <? 0) || (cols <? 0) then Raise ValueError
  else Ok (replicate (Z.to_nat rows) (replicate (Z.to_nat cols) 0)).

(** An integer index on an axis of length [n]: a negative index counts from
    the end, anything outside [-n, n) raises. *)
Definition axis_index (n : nat) (i : Z) : result nat :=
  if (0 <=? i) && (i <? Z.of_nat n) then Ok (Z.to_nat i)
  else if (- Z.of_nat n <=? i) && (i <? 0) then Ok (Z.to_nat (Z.of_nat n + i))
  else Raise IndexError.

(** A bound of a slice on an axis of length [len], clipped as Python does. *)
Definition slice_bound (len : Z) (b : Z) : Z :=
  if b <? 0 then Z.max (b + len) 0 else Z.min b len.

(** Whether index [j] belongs to the slice [start:stop:step] ([step > 0],
    [None] for an omitted bound) of an axis of length [len]. *)
Definition in_slice (start stop : option Z) (step : Z) (len : nat) (j : nat)
  : bool :=
  let lo := match start with None => 0 | Some a => slice_bound (Z.of_nat len) a end in
  let hi := match stop with
            | None => Z.of_nat len
            | Some b => slice_bound (Z.of_nat len) b
            end in
  (lo <=? Z.of_nat j) && (Z.of_nat j <? hi) && ((Z.of_nat j - lo) mod step =? 0).

(** Overwrite with [v] the entries whose index satisfies [P]. *)
Definition set_where (P : nat -> bool) (v : Z) (row : list Z) : list Z :=
  imap (fun j x => if P j then v else x) row.

(** [row[start:stop:step] = v]. *)
Definition assign_slice (start stop : option Z) (step : Z) (v : Z)
    (row : list Z) : list Z :=
  set_where (in_slice start stop step (length row)) v row.

(** [grid[sym_idx, start:stop:step] = v]. *)
Definition assign_row_slice (g : grid) (sym_idx : Z)
    (start stop : option Z) (step : Z) (v : Z) : result grid :=
  r ← axis_index (length g) sym_idx;
  Ok (alter (assign_slice start stop step v) r g).

(** [grid[:, :] = v]. *)
Definition assign_all (v : Z) (g : grid) : grid :=
  map (assign_slice None None 1 v) g.

(** [grid[mask == key] = v]; a mask of another shape raises. *)
Definition mask_assign (g mask : grid) (key v : Z) : result grid :=
  if bool_decide (map length g = map length mask)
  then Ok (zip_with (zip_with (fun x m => if m =? key then v else x)) g mask)
  else Raise IndexError.

(** The sum of [f] over a list. *)
Definition sum_over {A} (f : A -> Z) (l : list A) : Z :=
  foldr (fun x acc => f x + acc) 0 l.

(** [np.sum(grid == v)]. *)
Definition count_eq (v : Z) (g : grid) : Z :=
  sum_over (sum_over (fun x => if x =? v then 1 else 0)) g.

(** [range(n)] and [range(start, stop, step)] for a positive step. *)
Definition range (n : Z) : list Z := map Z.of_nat (seq 0 (Z.to_nat n)).

Definition range_step (start stop step : Z) : list Z :=
  map (fun k => start + step * Z.of_nat k)
      (seq 0 (Z.to_nat ((stop - start + step - 1) / step))).

(** ** Mask generators *)

(** The Type2 loop over the subcarrier groups of one symbol row; [total]
    stands for [num_rbs * 12]. *)
Definition mark_type2 (total : Z) (sym_idx : Z) (g : grid) : result grid :=
  for_each (range_step 0 total 6)
    (fun sc_idx g =>
       if sc_idx <? total - 1
       then assign_row_slice g sym_idx (Some sc_idx) (Some (sc_idx + 2)) 1 1
       else Ok g)
    g.

Definition create_dmrs_pattern (num_rbs num_symbols : Z) (dmrs_type : string)
    (dmrs_positions : list Z) : result grid :=
  g ← np_zeros num_symbols (num_rbs * 12);
  if String.eqb dmrs_type "Type1" then
    for_each dmrs_positions
      (fun sym_idx g =>
         if sym_idx <? num_symbols
         then assign_row_slice g sym_idx None None 2 1
         else Ok g)
      g
  else if String.eqb dmrs_type "Type2" then
    for_each dmrs_positions
      (fun sym_idx g =>
         if sym_idx <? num_symbols
         then mark_type2 (num_rbs * 12) sym_idx g
         else Ok g)
      g
  else Ok g.

Definition create_pdcch_region (num_rbs num_symbols coreset_duration : Z)
  : result grid :=
  g ← np_zeros num_symbols (num_rbs * 12);
  for_each (range (Z.min coreset_duration num_symbols))
    (fun sym_idx g => assign_row_slice g sym_idx None None 1 1)
    g.

(** ** Resource grid block *)

(** Lines 519-535.  Cell values: 0 empty, 1 PDSCH, 2 PDCCH, 3 DMRS. *)
Definition resource_grid (num_rbs num_symbols : Z)
    (show_dmrs show_pdcch show_pdsch : bool)
    (dmrs_type : string) (dmrs_symbols : list Z) (coreset_duration : Z)
  : result grid :=
  let total_subcarriers := num_rbs * 12 in
  grid_allocation ← np_zeros num_symbols total_subcarriers;
  let grid_allocation :=
    if show_pdsch then assign_all 1 grid_allocation else grid_allocation in
  grid_allocation ←
    (if show_pdcch then
       pdcch ← create_pdcch_region num_rbs num_symbols coreset_duration;
       mask_assign grid_allocation pdcch 1 2
     else Ok grid_allocation);
  grid_allocation ←
    (if show_dmrs then
       dmrs ← create_dmrs_pattern num_rbs num_symbols dmrs_type dmrs_symbols;
       mask_assign grid_allocation dmrs 1 3
     else Ok grid_allocation);
  Ok grid_allocation.

(** Lines 581-585. *)
Record grid_stats : Type := {
  total_res : Z;
  dmrs_res : Z;
  pdcch_res : Z;
  pdsch_res : Z;
  empty_res : Z
}.

Definition resource_statistics (num_rbs num_symbols : Z) (grid_allocation : grid)
  : grid_stats :=
  {| total_res := num_rbs * 12 * num_symbols;
     dmrs_res := count_eq 3 grid_allocation;
     pdcch_res := count_eq 2 grid_allocation;
     pdsch_res := count_eq 1 grid_allocation;
     empty_res := count_eq 0 grid_allocation |}.

(** ** Statements' vocabulary *)

(** A grid of [n] rows of [m] entries. *)
Definition has_shape (n m : nat) (g : grid) : Prop :=
  length g = n /\ Forall (fun row => length row = m) g.

(** Every entry is one of the four classes 0..3. *)
Definition classified (g : grid) : Prop :=
  Forall (Forall (fun x => 0 <= x <= 3)) g.


(** The layout the pattern code is meant to build, in closed form: the D
    slots, the X slot when a partial slot is configured, the U slots, and F
    up to the slot count. *)
Definition pattern_body (num_dl_slots num_dl_symbols num_ul_slots num_ul_symbols : Z)
  : list string :=
  replicate (Z.to_nat num_dl_slots) "D"
  ++ (if has_partial num_dl_symbols num_ul_symbols then ["X"] else [])
  ++ replicate (Z.to_nat num_ul_slots) "U".

Definition pattern_layout (slots : Z)
    (num_dl_slots num_dl_symbols num_ul_slots num_ul_symbols : Z) : list string :=
  let body := pattern_body num_dl_slots num_dl_symbols num_ul_slots num_ul_symbols in
  body ++ replicate (Z.to_nat (slots - Z.of_nat (length body))) "F".

(** The quotient of the period by the slot duration is a whole number of
    slots, at least one. *)
Definition integral_slot_count (periodicity_ms slot_ms : Q) : Prop :=
  ~ (slot_ms == 0)%Q /\
  (inject_Z (int_of_float (periodicity_ms / slot_ms)) == periodicity_ms / slot_ms)%Q /\
  1 <= int_of_float (periodicity_ms / slot_ms).

(** Symbols of each kind that one slot of the pattern stands for: 14 for a
    full slot, the configured split for the X slot. *)
Definition dl_symbols_in (num_dl_symbols : Z) (label : string) : Z :=
  if String.eqb label "D" then 14
  else if String.eqb label "X" then num_dl_symbols else 0.

Definition ul_symbols_in (num_ul_symbols : Z) (label : string) : Z :=
  if String.eqb label "U" then 14
  else if String.eqb label "X" then num_ul_symbols else 0.

Definition guard_symbols_in (num_dl_symbols num_ul_symbols : Z) (label : string) : Z :=
  if String.eqb label "X" then 14 - num_dl_symbols - num_ul_symbols else 0.

Definition flexible_symbols_in (label : string) : Z :=
  if String.eqb label "F" then 14 else 0.

(** A percentage of the period's symbols, as a float: the division the
    block uses for its downlink and uplink figures. *)
Definition pct_of (symbols total : Z) : result spec_float :=
  int_truediv (100 * symbols) total.

(** The subcarriers a DMRS symbol row marks, on a row of [total]
    subcarriers: every second one for Type1; for Type2 the first two of each
    group of six, a group being marked only when two subcarriers fit. *)
Definition type1_mask (j : nat) : bool := Z.of_nat j mod 2 =? 0.

Definition type2_mask (total : Z) (j : nat) : bool :=
  (Z.of_nat j mod 6 <? 2) && (6 * (Z.of_nat j / 6) + 2 <=? total).

Definition dmrs_row_mask (dmrs_type : string) (total : Z) (j : nat) : bool :=
  if String.eqb dmrs_type "Type1" then type1_mask j
  else if String.eqb dmrs_type "Type2" then type2_mask total j
  else false.

Definition zero_row (total : Z) : list Z := replicate (Z.to_nat total) 0.

Definition dmrs_row (dmrs_type : string) (total : Z) : list Z :=
  set_where (dmrs_row_mask dmrs_type total) 1 (zero_row total).

(** The row an accepted symbol index lands on. *)
Definition row_of_position (num_symbols p : Z) : Z :=
  if p <? 0 then num_symbols + p else p.

(** Whether some position of the list passes the bound check and lands on
    row [r]. *)
Definition selects (num_symbols : Z) (positions : list Z) (r : nat) : bool :=
  existsb (fun p => (p <? num_symbols)
                    && (row_of_position num_symbols p =? Z.of_nat r))
          positions.

(** What the Type2 loop does to the one row it indexes. *)
Definition mark_type2_row (total : Z) (row : list Z) : list Z :=
  foldl (fun row sc_idx =>
           if sc_idx <? total - 1
           then assign_slice (Some sc_idx) (Some (sc_idx + 2)) 1 1 row
           else row)
        row (range_step 0 total 6).

(** Whether subcarrier [c] of a DMRS symbol row is marked, on a grid of
    whole resource blocks. *)
Definition dmrs_cell (dmrs_type : string) (c : nat) : bool :=
  if String.eqb dmrs_type "Type1" then Z.of_nat c mod 2 =? 0
  else if String.eqb dmrs_type "Type2" then Z.of_nat c mod 6 <? 2
  else false.

(** Whether a mask covers the cell, that is, holds 1 there. *)
Definition covers (mask : grid) (r c : nat) : bool :=
  match cell mask r c with
  | Some m => m =? 1
  | None => false
  end.

(** The state of the DMRS loop once the positions [seen] are done, with
    [mask] the subcarriers a symbol row marks: row [r] is marked exactly when
    one of these positions passed the bound check and landed on [r]. *)
Definition rows_after (ns total : Z) (mask : nat -> bool) (seen : list Z)
    (g : grid) : Prop :=
  length g = Z.to_nat ns /\
  forall r, (r < Z.to_nat ns)%nat ->
    g !! r = Some (if selects ns seen r
                   then set_where mask 1 (zero_row total)
                   else zero_row total).

(** The number of symbol rows the positions mark, and the marked subcarriers
    per resource block of such a row. *)
Definition marked_rows (num_symbols : Z) (positions : list Z) : Z :=
  sum_over (fun r => if selects num_symbols positions r then 1 else 0)
           (seq 0 (Z.to_nat num_symbols)).

Definition dmrs_per_rb (dmrs_type : string) : Z :=
  if String.eqb dmrs_type "Type1" then 6
  else if String.eqb dmrs_type "Type2" then 4
  else 0.

(** * Properties *)

(** ** Theorems: numerology *)

Lemma mu_map_supported scs m :
  mu_map !! scs = Some m <->
  In (scs, m) [(15, 0); (30, 1); (60, 2); (120, 3); (240, 4)].
Proof.
  unfold mu_map. simpl.
  repeat (rewrite lookup_insert; case_decide; subst).
  all: rewrite ?lookup_empty.
  all: split; intros Hm; simplify_eq; auto 10.
  all: repeat (destruct Hm as [Hm | Hm]; simplify_eq); done.
Qed.

Lemma mu_map_unsupported scs :
  ~ In scs supported_scs -> mu_map !! scs = None.
Proof.
  intros Hn. destruct (mu_map !! scs) as [m|] eqn:E; [|done].
  exfalso. apply Hn. apply mu_map_supported in E. simpl in E. unfold supported_scs.
  simpl. intuition (simplify_eq; auto 10).
Qed.

(** C4: for every supported subcarrier spacing the resolver returns the
    timing record with mu taken from the fixed map, slot duration 1/2^mu,
    2^mu slots per subframe, ten times as many per frame and 14 symbols per
    slot; the map reaches every mu in 0..4 and there a frame lasts 10 ms. *)
Theorem get_slot_params_supported :
  (forall scs, In scs supported_scs ->
     exists p, get_slot_params scs = Ok p /\
       In (scs, mu p) [(15, 0); (30, 1); (60, 2); (120, 3); (240, 4)] /\
       (slot_duration_ms p == 1 / inject_Z (2 ^ mu p))%Q /\
       slots_per_subframe p = 2 ^ mu p /\
       slots_per_frame p = 10 * slots_per_subframe p /\
       symbols_per_slot p = 14) /\
  (forall m, 0 <= m <= 4 ->
     exists scs p, In scs supported_scs /\ get_slot_params scs = Ok p /\
       mu p = m /\
       slots_per_frame p = 10 * 2 ^ m /\
       (slot_duration_ms p * inject_Z (slots_per_frame p) == 10)%Q).
Proof.
  split.
  - intros scs Hin. unfold supported_scs in Hin. simpl in Hin.
    repeat destruct Hin as [<- | Hin]; try contradiction;
      (eexists; split; [reflexivity|]); simpl;
      repeat split; auto 10.
  - intros m Hm.
    assert (m = 0 \/ m = 1 \/ m = 2 \/ m = 3 \/ m = 4) as Hc by lia.
    destruct Hc as [-> | [-> | [-> | [-> | ->]]]].
    + exists 15. eexists. split; [simpl; auto|]. split; [reflexivity|]. by repeat split.
    + exists 30. eexists. split; [simpl; auto|]. split; [reflexivity|]. by repeat split.
    + exists 60. eexists. split; [simpl; auto|]. split; [reflexivity|]. by repeat split.
    + exists 120. eexists. split; [simpl; auto 10|]. split; [reflexivity|]. by repeat split.
    + exists 240. eexists. split; [simpl; auto 10|]. split; [reflexivity|]. by repeat split.
Qed.

Lemma get_slot_params_supported_witness :
  exists p, get_slot_params 30 = Ok p /\ mu p = 1 /\
    (slot_duration_ms p == 1 # 2)%Q /\ slots_per_frame p = 20.
Proof.
  destruct (proj1 get_slot_params_supported 30) as (p & Hp & _).
  - unfold supported_scs. simpl. lia.
  - exists p. split; [exact Hp|].
    vm_compute in Hp. injection Hp as <-. by repeat split.
Defined.

(** C7: outside the five supported spacings the resolver raises the lookup
    error carrying the offending value, and never returns a timing record. *)
Theorem get_slot_params_unsupported scs :
  ~ In scs supported_scs ->
  get_slot_params scs = Raise (KeyError scs) /\
  ~ returns (get_slot_params scs).
Proof.
  intros Hn. unfold get_slot_params.
  rewrite (mu_map_unsupported scs Hn). split; [done|].
  intros [p Hp]. discriminate.
Qed.

Lemma get_slot_params_unsupported_witness :
  get_slot_params 20 = Raise (KeyError 20) /\ ~ returns (get_slot_params 20).
Proof.
  apply (get_slot_params_unsupported 20).
  unfold supported_scs. simpl. lia.
Defined.


(** ** Theorems: TDD pattern *)

Lemma append_times_replicate n label (pat : list string) :
  append_times n label pat = pat ++ replicate n label.
Proof.
  revert pat. induction n as [|n IH]; intros pat; simpl.
  - by rewrite app_nil_r.
  - rewrite IH, <- app_assoc. done.
Qed.

Lemma pad_flexible_replicate fuel slots (pat : list string) :
  (Z.to_nat (slots - Z.of_nat (length pat)) <= fuel)%nat ->
  pad_flexible fuel slots pat
  = pat ++ replicate (Z.to_nat (slots - Z.of_nat (length pat))) "F".
Proof.
  revert pat. induction fuel as [|fuel IH]; intros pat Hfuel; simpl.
  - replace (Z.to_nat _) with O by lia. by rewrite app_nil_r.
  - destruct (Z.ltb_spec (Z.of_nat (length pat)) slots) as [Hlt | Hge].
    + rewrite IH by (rewrite length_app; simpl; lia).
      rewrite length_app. simpl.
      replace (Z.to_nat (slots - Z.of_nat (length pat)))
        with (S (Z.to_nat (slots - Z.of_nat (length pat + 1)%nat))) by lia.
      simpl. by rewrite <- app_assoc.
    + replace (Z.to_nat _) with O by lia. by rewrite app_nil_r.
Qed.

(** The loop stops: in its result the loop condition is false. *)
Lemma pad_flexible_exit slots (pat : list string) :
  (Z.of_nat (length (pad_flexible (Z.to_nat slots) slots pat)) <? slots) = false.
Proof.
  rewrite pad_flexible_replicate by lia.
  rewrite length_app, length_replicate. apply Z.ltb_ge. lia.
Qed.

Lemma truediv_ok (a b : Q) : ~ (b == 0)%Q -> truediv a b = Ok (a / b)%Q.
Proof.
  intros Hb. unfold truediv.
  destruct (Qeq_bool b 0) eqn:E; [|done].
  apply Qeq_bool_iff in E. contradiction.
Qed.


Lemma int_of_float_floor (q : Q) : (0 <= q)%Q -> int_of_float q = Qfloor q.
Proof.
  destruct q as [n d]. unfold Qle, int_of_float. simpl. intros Hn.
  apply Z.quot_div_nonneg; lia.
Qed.

Lemma int_of_float_ceiling (q : Q) : (q <= 0)%Q -> int_of_float q = Qceiling q.
Proof.
  destruct q as [n d]. unfold Qle, int_of_float, Qceiling. simpl. intros Hn.
  assert (n <= 0) as Hn' by lia.
  rewrite <- (Z.quot_div_nonneg (- n) (Z.pos d)) by lia.
  rewrite Z.quot_opp_l by lia. lia.
Qed.

Lemma synthesize_tdd_closed p d dl dls ul uls :
  ~ (d == 0)%Q ->
  synthesize_tdd p d dl dls ul uls
  = Ok {| slots_in_period := int_of_float (p / d);
          slot_pattern := pattern_layout (int_of_float (p / d)) dl dls ul uls;
          guard := if has_partial dls uls then Some (14 - dls - uls) else None;
          partial := if has_partial dls uls
                     then Some ("D" +:+ str dls +:+ "G" +:+ str (14 - dls - uls)
                                    +:+ "U" +:+ str uls)
                     else None |}.
Proof.
  intros Hd. unfold synthesize_tdd. rewrite (truediv_ok p d Hd). simpl.
  unfold pattern_layout, pattern_body.
  destruct (has_partial dls uls).
  - f_equal. f_equal.
    rewrite !append_times_replicate. simpl.
    rewrite pad_flexible_replicate by lia.
    rewrite <- !app_assoc. done.
  - f_equal. f_equal.
    rewrite !append_times_replicate. simpl.
    rewrite pad_flexible_replicate by lia. done.
Qed.

Lemma pattern_body_length dl dls ul uls :
  Z.of_nat (length (pattern_body dl dls ul uls))
  = Z.max 0 dl + (if has_partial dls uls then 1 else 0) + Z.max 0 ul.
Proof.
  unfold pattern_body. rewrite !length_app, !length_replicate.
  destruct (has_partial dls uls); simpl; lia.
Qed.

Lemma pattern_layout_length slots dl dls ul uls :
  Z.of_nat (length (pattern_layout slots dl dls ul uls))
  = Z.max slots (Z.of_nat (length (pattern_body dl dls ul uls))).
Proof.
  unfold pattern_layout. simpl. rewrite length_app, length_replicate. lia.
Qed.

(** C2: with a whole slot count and at most 14 partial symbols, the pattern
    is the D slots, then one X slot exactly when a partial slot is configured
    (with dl, guard = 14 - dl - ul and ul recorded beside it), then the U
    slots, then F up to the slot count; the 5 ms / 0.5 ms example gives
    7 D, X(10, 2, 2), 2 U and no F. *)
Theorem synthesize_tdd_layout :
  (forall p d dl dls ul uls,
     integral_slot_count p d -> dls + uls <= 14 ->
     exists st, synthesize_tdd p d dl dls ul uls = Ok st /\
       (inject_Z (slots_in_period st) == p / d)%Q /\
       slot_pattern st
       = replicate (Z.to_nat dl) "D"
         ++ (if has_partial dls uls then ["X"] else [])
         ++ replicate (Z.to_nat ul) "U"
         ++ replicate (Z.to_nat (slots_in_period st
                                 - Z.of_nat (length (pattern_body dl dls ul uls)))) "F" /\
       (has_partial dls uls = true <-> (0 < dls \/ 0 < uls)) /\
       (has_partial dls uls = true ->
          guard st = Some (14 - dls - uls) /\ 0 <= 14 - dls - uls /\
          partial st = Some ("D" +:+ str dls +:+ "G" +:+ str (14 - dls - uls)
                                 +:+ "U" +:+ str uls)) /\
       (has_partial dls uls = false -> guard st = None /\ partial st = None) /\
       (Z.of_nat (length (pattern_body dl dls ul uls)) <= slots_in_period st ->
          Z.of_nat (length (slot_pattern st)) = slots_in_period st /\
          shown_pattern st = slot_pattern st)) /\
  (exists st, synthesize_tdd 5 (1 # 2) 7 10 2 2 = Ok st /\
     slots_in_period st = 10 /\
     slot_pattern st = ["D"; "D"; "D"; "D"; "D"; "D"; "D"; "X"; "U"; "U"] /\
     shown_pattern st = slot_pattern st /\
     guard st = Some 2 /\
     partial st = Some "D10G2U2").
Proof.
  split.
  - intros p d dl dls ul uls (Hd & Hint & Hpos) Hsym.
    eexists. split; [apply (synthesize_tdd_closed p d dl dls ul uls Hd)|]. simpl.
    split; [exact Hint|].
    split; [unfold pattern_layout, pattern_body; simpl; by rewrite <- !app_assoc|].
    split; [unfold has_partial; rewrite orb_true_iff, !Z.ltb_lt; tauto|].
    split; [intros ->; repeat split; [lia]|].
    split; [intros ->; done|].
    intros Hfit. unfold shown_pattern, slice_to. simpl.
    pose proof (pattern_layout_length (int_of_float (p / d)) dl dls ul uls) as Hlen.
    split; [lia|].
    destruct (Z.leb_spec 0 (int_of_float (p / d))); [|lia].
    apply take_ge. lia.
  - eexists. split; [vm_compute; reflexivity|]. by vm_compute.
Qed.

Lemma synthesize_tdd_layout_witness :
  exists st, synthesize_tdd 10 (1 # 2) 7 10 2 2 = Ok st /\
    slot_pattern st
    = replicate 7 "D" ++ ["X"] ++ replicate 2 "U" ++ replicate 10 "F".
Proof.
  destruct (proj1 synthesize_tdd_layout 10%Q (1 # 2)%Q 7 10 2 2) as (st & Hst & _ & Hpat & _).
  - repeat split; vm_compute; congruence.
  - lia.
  - exists st. split; [exact Hst|].
    rewrite Hpat. vm_compute in Hst. injection Hst as <-. reflexivity.
Defined.

(** C1, as the code has it: whatever the quotient of the period by the slot
    duration, the pattern code raises nothing; the slot count is the quotient
    truncated toward zero and the pattern is laid out against that count. *)
Theorem synthesize_tdd_truncates p d dl dls ul uls :
  ~ (d == 0)%Q ->
  exists st, synthesize_tdd p d dl dls ul uls = Ok st /\
    slots_in_period st = int_of_float (p / d) /\
    ((0 <= p / d)%Q -> slots_in_period st = Qfloor (p / d)) /\
    ((p / d <= 0)%Q -> slots_in_period st = Qceiling (p / d)) /\
    slot_pattern st = pattern_layout (slots_in_period st) dl dls ul uls /\
    Z.of_nat (length (slot_pattern st))
    = Z.max (slots_in_period st) (Z.of_nat (length (pattern_body dl dls ul uls))).
Proof.
  intros Hd. eexists.
  split; [apply (synthesize_tdd_closed p d dl dls ul uls Hd)|]. simpl.
  split; [done|].
  split; [apply int_of_float_floor|].
  split; [apply int_of_float_ceiling|].
  split; [done|]. apply pattern_layout_length.
Qed.

Lemma synthesize_tdd_truncates_witness :
  exists st, synthesize_tdd (5 # 8) (1 # 2) 7 10 2 2 = Ok st /\
    slots_in_period st = 1 /\ length (slot_pattern st) = 10%nat.
Proof.
  destruct (synthesize_tdd_truncates (5 # 8) (1 # 2) 7 10 2 2)
    as (st & Hst & Hn & _ & _ & _ & Hlen).
  - vm_compute. congruence.
  - exists st. split; [exact Hst|].
    vm_compute in Hst. injection Hst as <-. split; reflexivity.
Defined.

(** C1 fails as stated: a period of 0.625 ms at 30 kHz (slots of 0.5 ms)
    gives the quotient 1.25, and the block returns a pattern and its
    percentages instead of an error. *)
Lemma synthesize_tdd_fractional_period :
  ~ integral_slot_count (5 # 8) (1 # 2) /\
  synthesize_tdd (5 # 8) (1 # 2) 7 10 2 2
  = Ok {| slots_in_period := 1;
          slot_pattern := ["D"; "D"; "D"; "D"; "D"; "D"; "D"; "X"; "U"; "U"];
          guard := Some 2;
          partial := Some "D10G2U2" |} /\
  returns (tdd_configuration (5 # 8) 7 10 2 2 30).
Proof.
  split; [|split].
  - intros (_ & Hint & _). vm_compute in Hint. discriminate.
  - vm_compute. reflexivity.
  - eexists. vm_compute. reflexivity.
Qed.

(** C3, as the code has it: more than 14 partial symbols raise nothing; the
    pattern holds its X slot and the guard beside it is the negative number
    14 - dl - ul. *)
Theorem synthesize_tdd_negative_guard p d dl dls ul uls :
  ~ (d == 0)%Q -> 14 < dls + uls ->
  exists st, synthesize_tdd p d dl dls ul uls = Ok st /\
    guard st = Some (14 - dls - uls) /\
    14 - dls - uls < 0 /\
    partial st = Some ("D" +:+ str dls +:+ "G" +:+ str (14 - dls - uls)
                           +:+ "U" +:+ str uls) /\
    slot_pattern st
    = replicate (Z.to_nat dl) "D" ++ ["X"] ++ replicate (Z.to_nat ul) "U"
      ++ replicate (Z.to_nat (slots_in_period st
                              - Z.of_nat (length (pattern_body dl dls ul uls)))) "F".
Proof.
  intros Hd Hsym. eexists.
  split; [apply (synthesize_tdd_closed p d dl dls ul uls Hd)|]. simpl.
  assert (has_partial dls uls = true) as Hp.
  { unfold has_partial. rewrite orb_true_iff, !Z.ltb_lt. lia. }
  unfold pattern_layout. simpl. unfold pattern_body at 1. rewrite Hp.
  repeat split; [lia|]. by rewrite <- !app_assoc.
Qed.

Lemma synthesize_tdd_negative_guard_witness :
  exists st, synthesize_tdd 1 (1 # 2) 7 13 2 13 = Ok st /\
    guard st = Some (-12).
Proof.
  destruct (synthesize_tdd_negative_guard 1 (1 # 2) 7 13 2 13)
    as (st & Hst & Hg & _).
  - vm_compute. congruence.
  - lia.
  - exists st. split; [exact Hst | exact Hg].
Defined.

(** C3 fails as stated: 13 downlink and 13 uplink symbols in the partial
    slot (both sliders at their maximum) return a pattern with guard -12. *)
Lemma synthesize_tdd_overfull_partial :
  14 < 13 + 13 /\
  synthesize_tdd 1 (1 # 2) 7 13 2 13
  = Ok {| slots_in_period := 2;
          slot_pattern := ["D"; "D"; "D"; "D"; "D"; "D"; "D"; "X"; "U"; "U"];
          guard := Some (-12);
          partial := Some "D13G-12U13" |} /\
  returns (tdd_configuration 1 7 13 2 13 30).
Proof.
  split; [lia|]. split.
  - vm_compute. reflexivity.
  - eexists. vm_compute. reflexivity.
Qed.

(** ** Theorems: TDD resource distribution *)

Lemma sum_over_app {A} (f : A -> Z) (l1 l2 : list A) :
  sum_over f (l1 ++ l2) = sum_over f l1 + sum_over f l2.
Proof. induction l1 as [|x l1 IH]; simpl; [done|]. rewrite IH. lia. Qed.

Lemma sum_over_replicate {A} (f : A -> Z) n (x : A) :
  sum_over f (replicate n x) = Z.of_nat n * f x.
Proof. induction n as [|n IH]; simpl; [done|]. rewrite IH. lia. Qed.

Lemma pattern_layout_sums slots dl dls ul uls :
  0 <= dl -> 0 <= dls -> 0 <= ul -> 0 <= uls ->
  let pat := pattern_layout slots dl dls ul uls in
  let pad := Z.max 0 (slots - Z.of_nat (length (pattern_body dl dls ul uls))) in
  sum_over (dl_symbols_in dls) pat = dl * 14 + dls /\
  sum_over (ul_symbols_in uls) pat = ul * 14 + uls /\
  sum_over (guard_symbols_in dls uls) pat
  = (if has_partial dls uls then 14 - dls - uls else 0) /\
  sum_over flexible_symbols_in pat = 14 * pad.
Proof.
  intros Hdl Hdls Hul Huls. unfold pattern_layout, pattern_body. simpl.
  assert (has_partial dls uls = false -> dls = 0 /\ uls = 0) as Hnone.
  { unfold has_partial. rewrite orb_false_iff, !Z.ltb_ge. lia. }
  rewrite !sum_over_app, !sum_over_replicate.
  rewrite !length_app, !length_replicate.
  destruct (has_partial dls uls); simpl.
  - unfold dl_symbols_in, ul_symbols_in, guard_symbols_in, flexible_symbols_in.
    simpl. repeat split; lia.
  - destruct Hnone as [-> ->]; [done|].
    unfold dl_symbols_in, ul_symbols_in, guard_symbols_in, flexible_symbols_in.
    simpl. repeat split; lia.
Qed.

(** ** Lemmas: binary64 division of integers *)

Lemma digits2_pos_size p : digits2_pos p = Pos.size p.
Proof. induction p as [p IH|p IH|]; simpl; by rewrite ?IH. Qed.

Lemma Zdigits2_log2 m : 0 < m -> Zdigits2 m = Z.log2 m + 1.
Proof.
  destruct m as [|p|p]; try lia. intros _. simpl. rewrite digits2_pos_size.
  destruct p; simpl; rewrite ?Pos2Z.inj_succ; lia.
Qed.

Lemma Zdigits2_nonneg m : 0 <= Zdigits2 m.
Proof. destruct m; simpl; lia. Qed.

Lemma Zdigits2_mono a b : 0 <= a <= b -> Zdigits2 a <= Zdigits2 b.
Proof.
  intros [Ha Hab]. destruct (Z.eq_dec a 0) as [->|Hne].
  - apply Zdigits2_nonneg.
  - rewrite !Zdigits2_log2 by lia.
    pose proof (Z.log2_le_mono a b Hab). lia.
Qed.

Lemma Zdigits2_succ m : 0 <= m -> Zdigits2 (m + 1) <= Zdigits2 m + 1.
Proof.
  intros Hm. destruct (Z.eq_dec m 0) as [->|Hne]; [simpl; lia|].
  rewrite !Zdigits2_log2 by lia.
  pose proof (Z.log2_succ_le m). unfold Z.succ in *. lia.
Qed.

Lemma Zdigits2_div_pow2 m n :
  0 <= m -> 0 <= n -> Zdigits2 (m / 2 ^ n) <= Z.max 0 (Zdigits2 m - n).
Proof.
  intros Hm Hn.
  assert (0 <= m / 2 ^ n) as Hq by (apply Z.div_pos; [lia | by apply Z.pow_pos_nonneg]).
  destruct (Z.eq_dec (m / 2 ^ n) 0) as [->|Hne]; [simpl; lia|].
  assert (0 < m) as Hpos.
  { destruct (Z.eq_dec m 0) as [->|]; [|lia]. by rewrite Z.div_0_l in Hne by (apply Z.pow_nonzero; lia). }
  rewrite !Zdigits2_log2 by lia.
  rewrite <- Z.shiftr_div_pow2 by lia. rewrite Z.log2_shiftr by lia.
  assert (n <= Z.log2 m); [|lia].
  apply Z.log2_le_pow2; [lia|].
  destruct (Z.lt_ge_cases m (2 ^ n)) as [Hlt|]; [|done].
  rewrite Z.div_small in Hne by lia. done.
Qed.

Lemma shr_1_half mrs :
  0 <= shr_m mrs -> shr_m (shr_1 mrs) = shr_m mrs / 2.
Proof.
  destruct mrs as [m r s]. simpl. intros Hm.
  destruct m as [|p|p]; [done| |lia].
  destruct p as [p|p|]; simpl.
  - apply (Z.div_unique _ _ _ 1); lia.
  - apply (Z.div_unique _ _ _ 0); lia.
  - done.
Qed.

Lemma iter_shr_1 n : forall mrs,
  0 <= shr_m mrs ->
  shr_m (SpecFloat.iter_pos shr_1 n mrs) = shr_m mrs / 2 ^ Zpos n.
Proof.
  assert (forall m a b, 0 <= a -> 0 <= b -> m / 2 ^ a / 2 ^ b = m / 2 ^ (a + b)) as Hdd.
  { intros m a b Ha Hb. rewrite Z.pow_add_r by done.
    rewrite Z.div_div; [done | apply Z.pow_nonzero; lia | by apply Z.pow_pos_nonneg]. }
  assert (forall m a, 0 <= m -> 0 <= a -> 0 <= m / 2 ^ a) as Hpos.
  { intros. apply Z.div_pos; [lia | by apply Z.pow_pos_nonneg]. }
  induction n as [n IH|n IH|]; intros mrs Hm; simpl.
  - assert (0 <= shr_m (shr_1 mrs)) as H1
      by (rewrite shr_1_half by done; apply Z.div_pos; lia).
    assert (0 <= shr_m (SpecFloat.iter_pos shr_1 n (shr_1 mrs))) as H2
      by (rewrite IH by done; apply Hpos; lia).
    rewrite IH by done. rewrite IH by done. rewrite shr_1_half by done.
    replace (shr_m mrs / 2) with (shr_m mrs / 2 ^ 1) by done.
    rewrite !Hdd by lia. f_equal. f_equal. lia.
  - assert (0 <= shr_m (SpecFloat.iter_pos shr_1 n mrs)) as H2
      by (rewrite IH by done; apply Hpos; lia).
    rewrite IH by done. rewrite IH by done.
    rewrite Hdd by lia. f_equal. f_equal. lia.
  - rewrite shr_1_half by done. done.
Qed.

Lemma shr_record_of_loc_m m l : shr_m (shr_record_of_loc m l) = m.
Proof. destruct l as [|[]]; done. Qed.

Lemma shr_fexp_bounds m e l mrs' e' :
  0 <= m -> shr_fexp 53 1024 m e l = (mrs', e') ->
  0 <= shr_m mrs' <= m /\
  e' = Z.max e (fexp 53 1024 (Zdigits2 m + e)) /\
  Zdigits2 (shr_m mrs') + e' <= Z.max (Zdigits2 m + e) e'.
Proof.
  intros Hm. unfold shr_fexp, shr.
  destruct (fexp 53 1024 (Zdigits2 m + e) - e) as [|n|n] eqn:En;
    intros [= <- <-]; rewrite ?shr_record_of_loc_m.
  - repeat split; lia.
  - rewrite iter_shr_1 by (by rewrite shr_record_of_loc_m).
    rewrite shr_record_of_loc_m.
    pose proof (Zdigits2_div_pow2 m (Z.pos n) Hm ltac:(lia)) as Hd.
    assert (0 < 2 ^ Z.pos n) as Hpow by (by apply Z.pow_pos_nonneg).
    assert (0 <= m / 2 ^ Z.pos n) by (apply Z.div_pos; lia).
    assert (m / 2 ^ Z.pos n <= m).
    { apply Z.div_le_upper_bound; [lia|]. nia. }
    repeat split; lia.
  - repeat split; lia.
Qed.

Lemma round_nearest_even_bounds m l :
  0 <= m -> m <= round_nearest_even m l <= m + 1.
Proof.
  intros Hm. unfold round_nearest_even.
  destruct l as [|[]]; try lia. destruct (Z.even m); lia.
Qed.

Lemma binary_round_aux_finite s m e l :
  0 <= m -> e <= 971 -> Zdigits2 m + e <= 1023 ->
  forall s', binary_round_aux 53 1024 s m e l <> S754_infinity s'.
Proof.
  intros Hm He Htop s'. unfold binary_round_aux.
  destruct (shr_fexp 53 1024 m e l) as [mrs1 e1] eqn:E1.
  apply shr_fexp_bounds in E1 as ([Hm1 Hm1'] & He1 & Htop1); [|done].
  pose proof (round_nearest_even_bounds (shr_m mrs1) (loc_of_shr_record mrs1) Hm1)
    as [Hr Hr'].
  set (mr := round_nearest_even (shr_m mrs1) (loc_of_shr_record mrs1)) in *.
  destruct (shr_fexp 53 1024 mr e1 loc_Exact) as [mrs2 e2] eqn:E2.
  apply shr_fexp_bounds in E2 as (_ & He2 & _); [|lia].
  assert (Zdigits2 mr <= Zdigits2 (shr_m mrs1) + 1) as Hdr.
  { etransitivity; [apply (Zdigits2_mono mr (shr_m mrs1 + 1)); lia|].
    by apply Zdigits2_succ. }
  unfold fexp, emin in *.
  assert (e2 <= 971) as He2' by lia.
  destruct (shr_m mrs2); try done.
  by replace (e2 <=? 1024 - 53) with true by lia.
Qed.

Lemma SFdiv_core_bounds (ma mb : positive) q e' l :
  SFdiv_core_binary 53 1024 (Z.pos ma) 0 (Z.pos mb) 0 = (q, e', l) ->
  0 <= q /\ e' <= 0 /\
  Zdigits2 q + e' <= Z.max 0 (Zdigits2 (Z.pos ma) - Zdigits2 (Z.pos mb) + 1).
Proof.
  unfold SFdiv_core_binary.
  set (e0 := Z.min (fexp 53 1024 (Zdigits2 (Z.pos ma) + 0 - (Zdigits2 (Z.pos mb) + 0)))
                   (0 - 0)).
  assert (e0 <= 0) as He0 by (unfold e0; lia).
  set (m' := match 0 - 0 - e0 with
             | 0 => Z.pos ma
             | Z.pos _ => Z.shiftl (Z.pos ma) (0 - 0 - e0)
             | Z.neg _ => 0
             end).
  assert (m' = Z.pos ma * 2 ^ (- e0)) as Hm'.
  { unfold m'. destruct (0 - 0 - e0) as [|s|s] eqn:Es; [| |lia].
    - replace (- e0) with 0 by lia. lia.
    - rewrite Z.shiftl_mul_pow2 by lia. f_equal. f_equal. lia. }
  clearbody m'.
  destruct (Z.div_eucl m' (Z.pos mb)) as [q0 r0] eqn:Ed.
  intros [= <- <- <-].
  assert (q0 = m' / Z.pos mb) as -> by (unfold Z.div; by rewrite Ed).
  assert (0 < 2 ^ (- e0)) as Hpow by (apply Z.pow_pos_nonneg; lia).
  assert (0 < m') as Hm'pos by nia.
  assert (0 <= m' / Z.pos mb) as Hq by (apply Z.div_pos; lia).
  split; [done|]. split; [done|].
  destruct (Z.eq_dec (m' / Z.pos mb) 0) as [->|Hne]; [simpl; lia|].
  rewrite !Zdigits2_log2 by lia.
  assert (Z.log2 (m' / Z.pos mb) <= Z.log2 m' - Z.log2 (Z.pos mb)); [|
    assert (Z.log2 m' = - e0 + Z.log2 (Z.pos ma)); [|lia];
    rewrite Hm'; apply Z.log2_mul_pow2; lia ].
  pose proof (Z.log2_spec (Z.pos mb) ltac:(lia)) as [Hlo _].
  pose proof (Z.log2_nonneg (Z.pos mb)) as Hl2.
  assert (m' / Z.pos mb <= m' / 2 ^ Z.log2 (Z.pos mb)) as Hle.
  { apply Z.div_le_compat_l; [lia|]. split; [by apply Z.pow_pos_nonneg | done]. }
  apply Z.log2_le_mono in Hle.
  rewrite <- Z.shiftr_div_pow2 in Hle by done.
  rewrite Z.log2_shiftr in Hle by done.
  assert (Z.pos mb <= m').
  { destruct (Z.lt_ge_cases m' (Z.pos mb)); [|done].
    rewrite Z.div_small in Hne by lia. done. }
  pose proof (Z.log2_le_mono _ _ H). lia.
Qed.

Lemma returns_unless_infinity (x : spec_float) :
  (forall s, x <> S754_infinity s) -> returns (finite_or_overflow x).
Proof.
  intros Hx. destruct x as [s|s| |s m e]; try (by eexists).
  by destruct (Hx s).
Qed.

Lemma SFdiv_exact_finite (ma mb : positive) (sa sb : bool) :
  Z.pos ma <= 2 ^ 1000 * Z.pos mb ->
  forall s, SFdiv 53 1024 (S754_finite sa ma 0) (S754_finite sb mb 0)
            <> S754_infinity s.
Proof.
  intros Hle s. cbn [SFdiv].
  destruct (SFdiv_core_binary 53 1024 (Z.pos ma) 0 (Z.pos mb) 0)
    as [[q e'] l] eqn:Ec.
  apply SFdiv_core_bounds in Ec as (Hq & He' & Htop).
  assert (Zdigits2 (Z.pos ma) - Zdigits2 (Z.pos mb) + 1 <= 1001) as Hd.
  { rewrite !Zdigits2_log2 by lia.
    assert (Z.log2 (Z.pos ma) <= Z.log2 (Z.pos mb * 2 ^ 1000)) as Hl
      by (apply Z.log2_le_mono; lia).
    rewrite Z.log2_mul_pow2 in Hl by lia. lia. }
  apply binary_round_aux_finite; lia.
Qed.

(** The quotient of two integers is a double, not an overflow, as soon as
    the numerator is not astronomically larger than the divisor. *)
Lemma int_truediv_returns a b :
  b <> 0 -> Z.abs a <= 2 ^ 1000 * Z.abs b -> returns (int_truediv a b).
Proof.
  intros Hb Hab. unfold int_truediv. replace (b =? 0) with false by lia.
  apply returns_unless_infinity. intros s.
  destruct a as [|ma|ma], b as [|mb|mb]; try lia; cbn [exact_int];
    try (cbn [SFdiv]; discriminate);
    apply SFdiv_exact_finite; exact Hab.
Qed.

Lemma int_truediv_zero a : int_truediv a 0 = Raise ZeroDivisionError.
Proof. reflexivity. Qed.

(** C8, as the code has it: the downlink and uplink percentages are the
    float percentages of the symbols counted over the period, 14 for each D
    or U slot plus the X slot's share, out of 14 symbols for every slot; the
    third percentage is the float 100 - DL% - UL%, and the symbols it stands
    for, those that are neither downlink nor uplink, are the X slot's guard
    symbols together with all 14 symbols of every F slot. *)
Theorem resource_distribution_split p d dl dls ul uls :
  ~ (d == 0)%Q ->
  0 <= dl -> 0 <= dls -> 0 <= ul -> 0 <= uls -> dls + uls <= 14 ->
  1 <= int_of_float (p / d) ->
  Z.of_nat (length (pattern_body dl dls ul uls)) <= int_of_float (p / d) ->
  exists st dist hundred,
    synthesize_tdd p d dl dls ul uls = Ok st /\
    resource_distribution (slots_in_period st) dl dls ul uls = Ok dist /\
    total_symbols dist = 14 * Z.of_nat (length (shown_pattern st)) /\
    pct_of (sum_over (dl_symbols_in dls) (shown_pattern st)) (total_symbols dist)
    = Ok (dl_pct dist) /\
    pct_of (sum_over (ul_symbols_in uls) (shown_pattern st)) (total_symbols dist)
    = Ok (ul_pct dist) /\
    float_of_int 100 = Ok hundred /\
    guard_pct dist = float_sub (float_sub hundred (dl_pct dist)) (ul_pct dist) /\
    total_symbols dist
    - sum_over (dl_symbols_in dls) (shown_pattern st)
    - sum_over (ul_symbols_in uls) (shown_pattern st)
    = sum_over (guard_symbols_in dls uls) (shown_pattern st)
      + sum_over flexible_symbols_in (shown_pattern st) /\
    sum_over flexible_symbols_in (shown_pattern st)
    = 14 * (slots_in_period st - Z.of_nat (length (pattern_body dl dls ul uls))).
Proof.
  intros Hd Hdl Hdls Hul Huls Hsym Hslots Hfit.
  set (n := int_of_float (p / d)) in *.
  pose proof (pattern_layout_sums n dl dls ul uls Hdl Hdls Hul Huls)
    as (Sdl & Sul & Sg & Sf).
  pose proof (pattern_layout_length n dl dls ul uls) as Hlen.
  pose proof (pattern_body_length dl dls ul uls) as Hbody.
  assert (has_partial dls uls = false -> dls = 0 /\ uls = 0) as Hnone.
  { unfold has_partial. rewrite orb_false_iff, !Z.ltb_ge. lia. }
  assert (dl * 14 + dls <= n * 14 /\ ul * 14 + uls <= n * 14) as [Bdl Bul].
  { destruct (has_partial dls uls); [lia|].
    destruct Hnone as [-> ->]; [done|lia]. }
  assert (100 <= 2 ^ 1000) as HK by (by vm_compute).
  destruct (int_truediv_returns (100 * (dl * 14 + dls)) (n * 14))
    as [fdl Hfdl]; [lia | nia |].
  destruct (int_truediv_returns (100 * (ul * 14 + uls)) (n * 14))
    as [ful Hful]; [lia | nia |].
  assert (exists h, float_of_int 100 = Ok h) as [h Hh] by (by eexists).
  eexists. eexists. exists h.
  split; [apply (synthesize_tdd_closed p d dl dls ul uls Hd)|].
  fold n. unfold resource_distribution. cbn [slots_in_period].
  rewrite Hfdl, Hful, Hh. cbn [mbind result_bind].
  split; [reflexivity|].
  unfold shown_pattern, slice_to, pct_of.
  cbn [slots_in_period slot_pattern total_symbols dl_pct ul_pct guard_pct].
  destruct (Z.leb_spec 0 n); [|lia].
  rewrite take_ge by lia.
  rewrite Sdl, Sul, Sg, Sf.
  split; [lia|]. split; [exact Hfdl|]. split; [exact Hful|].
  split; [done|]. split; [done|].
  split; [|lia].
  rewrite Hbody in *.
  destruct (has_partial dls uls); [lia|].
  destruct Hnone as [-> ->]; [done|lia].
Qed.

Lemma resource_distribution_split_witness :
  exists st dist,
    synthesize_tdd 10 (1 # 2) 7 10 2 2 = Ok st /\
    resource_distribution (slots_in_period st) 7 10 2 2 = Ok dist /\
    total_symbols dist
    - sum_over (dl_symbols_in 10) (shown_pattern st)
    - sum_over (ul_symbols_in 2) (shown_pattern st)
    = sum_over (guard_symbols_in 10 2) (shown_pattern st)
      + sum_over flexible_symbols_in (shown_pattern st).
Proof.
  destruct (resource_distribution_split 10 (1 # 2) 7 10 2 2)
    as (st & dist & h & Hst & Hdist & _ & _ & _ & _ & _ & Hrest & _).
  - vm_compute. congruence.
  - lia.
  - lia.
  - lia.
  - lia.
  - lia.
  - vm_compute. congruence.
  - vm_compute. congruence.
  - exists st, dist. split; [exact Hst|]. split; [exact Hdist | exact Hrest].
Defined.

(** C8 fails as stated for the guard percentage: a 10 ms period at 30 kHz
    with the default sliders has 20 slots, ten of them F; the X slot has 2
    guard symbols out of 280, 0.714...%, yet the reported figure is
    50.714...%, which counts the 140 symbols of the F slots too. *)
Lemma resource_distribution_counts_flexible :
  exists st dist claimed,
    tdd_configuration 10 7 10 2 2 30 = Ok (st, dist) /\
    shown_pattern st
    = replicate 7 "D" ++ ["X"] ++ replicate 2 "U" ++ replicate 10 "F" /\
    sum_over (guard_symbols_in 10 2) (shown_pattern st) = 2 /\
    total_symbols dist = 280 /\
    guard_pct dist = S754_finite false 7137401195163063 (-47) /\
    pct_of (sum_over (guard_symbols_in 10 2) (shown_pattern st))
           (total_symbols dist) = Ok claimed /\
    claimed = S754_finite false 6433713753386423 (-53) /\
    guard_pct dist <> claimed /\
    SFltb claimed (guard_pct dist) = true.
Proof.
  eexists. eexists. eexists. split; [vm_compute; reflexivity|].
  split; [by vm_compute|]. split; [by vm_compute|]. split; [by vm_compute|].
  split; [by vm_compute|]. split; [vm_compute; reflexivity|].
  split; [reflexivity|]. split; [by vm_compute | by vm_compute].
Qed.


(** ** Lemmas: loops, rows and shapes *)

Lemma for_each_preserves {A S} (I : S -> Prop) (xs : list A)
    (body : A -> S -> result S) :
  (forall x s s', I s -> body x s = Ok s' -> I s') ->
  forall s s', I s -> for_each xs body s = Ok s' -> I s'.
Proof.
  intros Hbody. induction xs as [|x xs IH]; intros s s' Hs Hrun; simpl in Hrun.
  - by injection Hrun as <-.
  - destruct (body x s) as [s1|e] eqn:E; simpl in Hrun; [|discriminate].
    eapply IH; [|exact Hrun]. eapply Hbody; eauto.
Qed.

Lemma for_each_returns {A S} (I : S -> Prop) (Q : A -> Prop) (xs : list A)
    (body : A -> S -> result S) :
  (forall x s, Q x -> I s -> exists s', body x s = Ok s' /\ I s') ->
  forall s, Forall Q xs -> I s -> exists s', for_each xs body s = Ok s' /\ I s'.
Proof.
  intros Hbody. induction xs as [|x xs IH]; intros s HQ Hs; simpl.
  - by exists s.
  - inversion HQ as [|? ? Hx Hxs]; subst.
    destruct (Hbody x s Hx Hs) as (s1 & -> & Hs1). simpl. by apply IH.
Qed.

Lemma length_set_where P v row : length (set_where P v row) = length row.
Proof. unfold set_where. apply length_imap. Qed.

Lemma lookup_set_where P v row j :
  set_where P v row !! j = (fun x => if P j then v else x) <$> row !! j.
Proof. unfold set_where. apply list_lookup_imap. Qed.

Lemma set_where_ext P Q v row :
  (forall j, (j < length row)%nat -> P j = Q j) ->
  set_where P v row = set_where Q v row.
Proof.
  intros Hext. apply list_eq. intros j. rewrite !lookup_set_where.
  destruct (row !! j) as [x|] eqn:E; [|done]. simpl.
  rewrite Hext; [done|]. by eapply lookup_lt_Some.
Qed.

Lemma set_where_compose P Q v row :
  set_where P v (set_where Q v row) = set_where (fun j => P j || Q j) v row.
Proof.
  apply list_eq. intros j. rewrite !lookup_set_where.
  destruct (row !! j) as [x|]; [|done]. simpl.
  by destruct (P j), (Q j).
Qed.

Lemma length_assign_slice start stop step v row :
  length (assign_slice start stop step v row) = length row.
Proof. unfold assign_slice. apply length_set_where. Qed.

Lemma axis_index_lt n i r : axis_index n i = Ok r -> (r < n)%nat.
Proof.
  unfold axis_index. intros H.
  destruct ((0 <=? i) && (i <? Z.of_nat n)) eqn:E1.
  - injection H as <-. apply andb_true_iff in E1. lia.
  - destruct ((- Z.of_nat n <=? i) && (i <? 0)) eqn:E2; [|discriminate].
    injection H as <-. apply andb_true_iff in E2. lia.
Qed.

Lemma axis_index_in_range n i :
  - Z.of_nat n <= i < Z.of_nat n ->
  axis_index n i = Ok (Z.to_nat (if i <? 0 then Z.of_nat n + i else i)).
Proof.
  intros Hi. unfold axis_index.
  destruct (Z.ltb_spec i 0).
  - replace (0 <=? i) with false by lia. simpl.
    replace (- Z.of_nat n <=? i) with true by lia.
    replace (i <? 0) with true by lia. done.
  - replace (0 <=? i) with true by lia.
    replace (i <? Z.of_nat n) with true by lia. done.
Qed.

Lemma np_zeros_shape rows cols g :
  np_zeros rows cols = Ok g ->
  g = replicate (Z.to_nat rows) (replicate (Z.to_nat cols) 0) /\
  0 <= rows /\ 0 <= cols.
Proof.
  unfold np_zeros. destruct ((rows <? 0) || (cols <? 0)) eqn:E; [discriminate|].
  intros H. injection H as <-. apply orb_false_iff in E.
  split; [done | lia].
Qed.

Lemma np_zeros_returns rows cols :
  0 <= rows -> 0 <= cols ->
  np_zeros rows cols = Ok (replicate (Z.to_nat rows) (replicate (Z.to_nat cols) 0)).
Proof.
  intros. unfold np_zeros.
  replace (rows <? 0) with false by lia. replace (cols <? 0) with false by lia.
  done.
Qed.

Lemma has_shape_zeros n m : has_shape n m (replicate n (replicate m 0)).
Proof.
  split; [apply length_replicate|].
  apply Forall_replicate. apply length_replicate.
Qed.

Lemma has_shape_alter f n m r (g : grid) :
  (forall row, length (f row) = length row) ->
  has_shape n m g -> has_shape n m (alter f r g).
Proof.
  intros Hf [Hn Hm]. split; [by rewrite length_alter|].
  apply Forall_alter; [done|]. intros row Hrow. by rewrite Hf.
Qed.

Lemma assign_row_slice_shape n m g i start stop step v g' :
  has_shape n m g ->
  assign_row_slice g i start stop step v = Ok g' -> has_shape n m g'.
Proof.
  intros Hg. unfold assign_row_slice.
  destruct (axis_index (length g) i) as [r|e]; simpl; [|discriminate].
  intros H. injection H as <-.
  apply has_shape_alter; [|done]. intros. apply length_assign_slice.
Qed.

Lemma mark_type2_shape n m total i g g' :
  has_shape n m g -> mark_type2 total i g = Ok g' -> has_shape n m g'.
Proof.
  unfold mark_type2. apply for_each_preserves.
  intros sc s s' Hs. destruct (sc <? total - 1).
  - by apply assign_row_slice_shape.
  - by intros [= <-].
Qed.

Lemma create_dmrs_pattern_shape num_rbs num_symbols ty positions g :
  create_dmrs_pattern num_rbs num_symbols ty positions = Ok g ->
  has_shape (Z.to_nat num_symbols) (Z.to_nat (num_rbs * 12)) g.
Proof.
  unfold create_dmrs_pattern.
  destruct (np_zeros num_symbols (num_rbs * 12)) as [g0|e] eqn:E0; simpl;
    [|discriminate].
  apply np_zeros_shape in E0 as (-> & _ & _).
  pose proof (has_shape_zeros (Z.to_nat num_symbols) (Z.to_nat (num_rbs * 12))) as H0.
  destruct (String.eqb ty "Type1"); [|destruct (String.eqb ty "Type2")].
  - apply for_each_preserves; [|exact H0].
    intros p s s' Hs. destruct (p <? num_symbols).
    + by apply assign_row_slice_shape.
    + by intros [= <-].
  - apply for_each_preserves; [|exact H0].
    intros p s s' Hs. destruct (p <? num_symbols).
    + by apply mark_type2_shape.
    + by intros [= <-].
  - by intros [= <-].
Qed.

Lemma create_pdcch_region_shape num_rbs num_symbols coreset_duration g :
  create_pdcch_region num_rbs num_symbols coreset_duration = Ok g ->
  has_shape (Z.to_nat num_symbols) (Z.to_nat (num_rbs * 12)) g.
Proof.
  unfold create_pdcch_region.
  destruct (np_zeros num_symbols (num_rbs * 12)) as [g0|e] eqn:E0; simpl;
    [|discriminate].
  apply np_zeros_shape in E0 as (-> & _ & _).
  apply for_each_preserves; [|apply has_shape_zeros].
  intros p s s' Hs. by apply assign_row_slice_shape.
Qed.

(** ** Lemmas: the DMRS rows *)

Lemma assign_slice_stride2 row :
  assign_slice None None 2 1 row = set_where type1_mask 1 row.
Proof.
  unfold assign_slice. apply set_where_ext. intros j Hj.
  unfold in_slice, type1_mask. rewrite Z.sub_0_r.
  replace (0 <=? Z.of_nat j) with true by lia.
  replace (Z.of_nat j <? Z.of_nat (length row)) with true by lia. done.
Qed.

Lemma assign_slice_full row :
  assign_slice None None 1 1 row = replicate (length row) 1.
Proof.
  unfold assign_slice. apply list_eq. intros j. rewrite lookup_set_where.
  destruct (row !! j) as [x|] eqn:E; simpl.
  - apply lookup_lt_Some in E as Hj.
    rewrite lookup_replicate_2 by done.
    unfold in_slice. rewrite Z.mod_1_r.
    replace (0 <=? Z.of_nat j) with true by lia.
    replace (Z.of_nat j <? Z.of_nat (length row)) with true by lia. done.
  - symmetry. apply lookup_replicate_None. by apply lookup_ge_None.
Qed.

Lemma foldl_set_where {K} (cond : K -> bool) (P : K -> nat -> bool) v ks row :
  foldl (fun row k => if cond k then set_where (P k) v row else row) row ks
  = set_where (fun j => existsb (fun k => cond k && P k j) ks) v row.
Proof.
  revert row. induction ks as [|k ks IH]; intros row; simpl.
  - apply list_eq. intros j. rewrite lookup_set_where.
    by destruct (row !! j).
  - rewrite IH. destruct (cond k); simpl.
    + rewrite set_where_compose. apply set_where_ext. intros j _.
      apply orb_comm.
    + done.
Qed.

Lemma in_range_step6 total sc :
  In sc (range_step 0 total 6) <-> 0 <= sc < total /\ sc mod 6 = 0.
Proof.
  unfold range_step. rewrite in_map_iff.
  pose proof (Z.div_mod (total - 0 + 6 - 1) 6) as Hdm.
  pose proof (Z.mod_pos_bound (total - 0 + 6 - 1) 6) as Hmb.
  split.
  - intros (k & <- & Hk). apply in_seq in Hk.
    split; [lia|]. rewrite Z.add_0_l, Z.mul_comm. by apply Z.mod_mul.
  - intros (Hsc & Hmod).
    pose proof (Z.div_mod sc 6) as Hdm'.
    assert (0 <= sc / 6) as Hq by (apply Z.div_pos; lia).
    exists (Z.to_nat (sc / 6)). split.
    + rewrite Z2Nat.id by done. lia.
    + apply in_seq. lia.
Qed.

Lemma type2_groups total (j : nat) :
  Z.of_nat j < total ->
  existsb (fun sc => (sc <? total - 1)
                     && in_slice (Some sc) (Some (sc + 2)) 1 (Z.to_nat total) j)
          (range_step 0 total 6)
  = type2_mask total j.
Proof.
  intros Hj. apply eq_true_iff_eq. rewrite existsb_exists.
  unfold type2_mask, in_slice, slice_bound.
  rewrite Z2Nat.id by lia.
  pose proof (Z.div_mod (Z.of_nat j) 6) as Hdm.
  pose proof (Z.mod_pos_bound (Z.of_nat j) 6) as Hmb.
  split.
  - intros (sc & Hin & Hsc). apply in_range_step6 in Hin as (Hr & Hmod).
    pose proof (Z.div_mod sc 6) as Hdm'.
    replace (sc <? 0) with false in Hsc by lia.
    replace (sc + 2 <? 0) with false in Hsc by lia.
    rewrite !andb_true_iff in Hsc. destruct Hsc as (H1 & (H2 & H3) & _).
    apply andb_true_iff. split; lia.
  - intros Hm. apply andb_true_iff in Hm as (H1 & H2).
    exists (6 * (Z.of_nat j / 6)). split.
    + apply in_range_step6. split; [lia|].
      rewrite Z.mul_comm. by apply Z.mod_mul.
    + replace (6 * (Z.of_nat j / 6) <? 0) with false by lia.
      replace (6 * (Z.of_nat j / 6) + 2 <? 0) with false by lia.
      rewrite Z.mod_1_r. rewrite !andb_true_iff. repeat split; lia.
Qed.

Lemma mark_type2_row_mask total row :
  Z.of_nat (length row) = total ->
  mark_type2_row total row = set_where (type2_mask total) 1 row.
Proof.
  intros Hlen. unfold mark_type2_row.
  assert (forall ks r,
    length r = length row ->
    foldl (fun row sc_idx =>
             if sc_idx <? total - 1
             then assign_slice (Some sc_idx) (Some (sc_idx + 2)) 1 1 row
             else row) r ks
    = foldl (fun row sc_idx =>
               if sc_idx <? total - 1
               then set_where (in_slice (Some sc_idx) (Some (sc_idx + 2)) 1
                                        (Z.to_nat total)) 1 row
               else row) r ks) as Hsame.
  { induction ks as [|k ks IH]; intros r Hr; simpl; [done|].
    unfold assign_slice at 2. rewrite Hr.
    replace (length row) with (Z.to_nat total) by lia.
    apply IH. destruct (k <? total - 1); [|done].
    by rewrite length_set_where. }
  rewrite Hsame by done.
  rewrite (foldl_set_where (fun sc => sc <? total - 1)
             (fun sc => in_slice (Some sc) (Some (sc + 2)) 1 (Z.to_nat total))).
  apply set_where_ext. intros j Hj. apply type2_groups. lia.
Qed.

(** The Type2 loop, run on a grid whose row index is in range, rewrites that
    one row. *)
Lemma mark_type2_alter total i r (g : grid) :
  axis_index (length g) i = Ok r ->
  mark_type2 total i g = Ok (alter (mark_type2_row total) r g).
Proof.
  unfold mark_type2, mark_type2_row.
  generalize (range_step 0 total 6) as ks.
  intros ks. revert g. induction ks as [|k ks IH]; intros g Hr;
    cbn [for_each foldl].
  - f_equal. symmetry. by apply list_alter_id.
  - destruct (k <? total - 1).
    + unfold assign_row_slice. rewrite Hr. cbn [mbind result_bind].
      rewrite IH by (by rewrite length_alter).
      f_equal. by rewrite list_alter_alter_eq.
    + cbn [mbind result_bind]. by apply IH.
Qed.

Lemma length_zero_row total : length (zero_row total) = Z.to_nat total.
Proof. apply length_replicate. Qed.

Lemma length_dmrs_row ty total : length (dmrs_row ty total) = Z.to_nat total.
Proof. unfold dmrs_row. by rewrite length_set_where, length_zero_row. Qed.

Lemma set_where_twice P v row :
  set_where P v (set_where P v row) = set_where P v row.
Proof.
  rewrite set_where_compose. apply set_where_ext. intros j _. apply orb_diag.
Qed.

Lemma selects_snoc ns seen p r :
  selects ns (seen ++ [p]) r
  = selects ns seen r || ((p <? ns) && (row_of_position ns p =? Z.of_nat r)).
Proof. unfold selects. rewrite existsb_app. simpl. by rewrite orb_false_r. Qed.

(** The loop over the symbol positions, for a loop body that rewrites the
    indexed row with [set_where mask 1] when the position passes the bound
    check, and leaves the grid alone otherwise. *)
Section dmrs_loop.
Variables (ns total : Z) (mask : nat -> bool).
Variable body : Z -> grid -> result grid.

Hypothesis ns_nonneg : 0 <= ns.
Hypothesis body_marks : forall p (g : grid) r,
  p < ns -> axis_index (length g) p = Ok r ->
  Forall (fun row => length row = Z.to_nat total) g ->
  body p g = Ok (alter (set_where mask 1) r g).
Hypothesis body_skips : forall p (g : grid), ns <= p -> body p g = Ok g.

Lemma rows_after_lengths seen g :
  rows_after ns total mask seen g -> Forall (fun row => length row = Z.to_nat total) g.
Proof.
  intros [Hlen Hrows]. apply Forall_lookup. intros r row Hr.
  assert (r < Z.to_nat ns)%nat as Hlt.
  { rewrite <- Hlen. by eapply lookup_lt_Some. }
  rewrite (Hrows r Hlt) in Hr. injection Hr as <-.
  destruct (selects ns seen r);
    by rewrite ?length_set_where, length_zero_row.
Qed.

Lemma rows_after_step seen g p :
  - ns <= p -> rows_after ns total mask seen g ->
  exists g', body p g = Ok g' /\ rows_after ns total mask (seen ++ [p]) g'.
Proof.
  intros Hp Hinv. pose proof (rows_after_lengths seen g Hinv) as Hlens.
  destruct Hinv as [Hlen Hrows].
  destruct (Z.lt_ge_cases p ns) as [Hlt | Hge].
  - assert (axis_index (length g) p
            = Ok (Z.to_nat (row_of_position ns p))) as Hidx.
    { rewrite Hlen. unfold row_of_position.
      rewrite axis_index_in_range by lia. by rewrite Z2Nat.id by lia. }
    eexists. split; [by apply body_marks|].
    split; [by rewrite length_alter|].
    intros r Hr. rewrite selects_snoc.
    replace (p <? ns) with true by lia. rewrite andb_true_l.
    assert (0 <= row_of_position ns p < ns) as Hrow.
    { unfold row_of_position. destruct (p <? 0) eqn:E; lia. }
    destruct (decide (Z.to_nat (row_of_position ns p) = r)) as [<-|Hne].
    + rewrite list_lookup_alter_eq, (Hrows _ Hr). simpl.
      rewrite Z2Nat.id by lia. rewrite Z.eqb_refl, orb_true_r.
      destruct (selects ns seen _); by rewrite ?set_where_twice.
    + rewrite list_lookup_alter_ne by done. rewrite (Hrows _ Hr).
      replace (row_of_position ns p =? Z.of_nat r) with false by lia.
      by rewrite orb_false_r.
  - exists g. split; [by apply body_skips|].
    split; [done|]. intros r Hr. rewrite selects_snoc.
    replace (p <? ns) with false by lia.
    rewrite andb_false_l, orb_false_r. by apply Hrows.
Qed.

Lemma rows_after_loop ps : forall seen g,
  Forall (fun p => - ns <= p) ps -> rows_after ns total mask seen g ->
  exists g', for_each ps body g = Ok g' /\ rows_after ns total mask (seen ++ ps) g'.
Proof.
  induction ps as [|p ps IH]; intros seen g Hps Hinv; cbn [for_each].
  - exists g. by rewrite app_nil_r.
  - inversion Hps as [|? ? Hp Hps']; subst.
    destruct (rows_after_step seen g p Hp Hinv) as (g1 & -> & Hinv1).
    cbn [mbind result_bind].
    destruct (IH (seen ++ [p]) g1 Hps' Hinv1) as (g' & Hrun & Hinv').
    exists g'. split; [done|]. by rewrite <- app_assoc in Hinv'.
Qed.

Lemma rows_after_zeros :
  rows_after ns total mask [] (replicate (Z.to_nat ns) (zero_row total)).
Proof.
  split; [apply length_replicate|].
  intros r Hr. simpl. by apply lookup_replicate_2.
Qed.
End dmrs_loop.

Lemma set_where_none v row : set_where (fun _ => false) v row = row.
Proof.
  apply list_eq. intros j. rewrite lookup_set_where. by destruct (row !! j).
Qed.

(** The DMRS mask in closed form: when no position lies below
    [- num_symbols] the generator returns, and row [r] is the marked row
    exactly when some position passes the bound check and lands on [r]. *)
Lemma create_dmrs_pattern_rows num_rbs num_symbols ty positions :
  0 <= num_rbs -> 0 <= num_symbols ->
  Forall (fun p => - num_symbols <= p) positions ->
  exists g, create_dmrs_pattern num_rbs num_symbols ty positions = Ok g /\
    length g = Z.to_nat num_symbols /\
    forall r, (r < Z.to_nat num_symbols)%nat ->
      g !! r = Some (if selects num_symbols positions r
                     then dmrs_row ty (num_rbs * 12)
                     else zero_row (num_rbs * 12)).
Proof.
  intros Hrbs Hns Hps. unfold create_dmrs_pattern.
  rewrite np_zeros_returns by lia. cbn [mbind result_bind].
  fold (zero_row (num_rbs * 12)).
  unfold dmrs_row, dmrs_row_mask.
  destruct (String.eqb ty "Type1") eqn:E1; [|destruct (String.eqb ty "Type2") eqn:E2].
  - apply (rows_after_loop num_symbols (num_rbs * 12) type1_mask _ Hns)
      with (seen := []); [| |done|by apply rows_after_zeros].
    + intros p g r Hp Hidx _. replace (p <? num_symbols) with true by lia.
      unfold assign_row_slice. rewrite Hidx. cbn [mbind result_bind].
      f_equal. apply list_alter_ext; [|done].
      intros row _. apply assign_slice_stride2.
    + intros p g Hp. by replace (p <? num_symbols) with false by lia.
  - apply (rows_after_loop num_symbols (num_rbs * 12)
             (type2_mask (num_rbs * 12)) _ Hns)
      with (seen := []); [| |done|by apply rows_after_zeros].
    + intros p g r Hp Hidx Hlens. replace (p <? num_symbols) with true by lia.
      rewrite (mark_type2_alter _ _ r) by done.
      f_equal. apply list_alter_ext; [|done].
      intros row Hrow. apply mark_type2_row_mask.
      rewrite Forall_lookup in Hlens. rewrite (Hlens _ _ Hrow). lia.
    + intros p g Hp. by replace (p <? num_symbols) with false by lia.
  - eexists. split; [done|]. split; [apply length_replicate|].
    intros r Hr. rewrite set_where_none. rewrite lookup_replicate_2 by done.
    by destruct (selects _ _ _).
Qed.

Lemma dmrs_row_lookup ty num_rbs (c : nat) :
  ty = "Type1" \/ ty = "Type2" ->
  Z.of_nat c < num_rbs * 12 ->
  dmrs_row ty (num_rbs * 12) !! c = Some (if dmrs_cell ty c then 1 else 0).
Proof.
  intros Hty Hc. unfold dmrs_row. rewrite lookup_set_where.
  unfold zero_row. rewrite lookup_replicate_2 by lia. simpl. f_equal.
  unfold dmrs_row_mask, dmrs_cell.
  destruct Hty as [-> | ->]; simpl; [done|].
  unfold type2_mask.
  pose proof (Z.div_mod (Z.of_nat c) 6) as Hdm.
  pose proof (Z.mod_pos_bound (Z.of_nat c) 6) as Hmb.
  replace (6 * (Z.of_nat c / 6) + 2 <=? num_rbs * 12) with true by lia.
  by rewrite andb_true_r.
Qed.

Lemma selects_in ns positions p :
  In p positions -> p < ns -> 0 <= row_of_position ns p ->
  selects ns positions (Z.to_nat (row_of_position ns p)) = true.
Proof.
  intros Hin Hp Hrow. unfold selects. apply existsb_exists.
  exists p. split; [done|]. rewrite Z2Nat.id by done.
  apply andb_true_iff. split; lia.
Qed.

(** C10: a symbol index i with -numSymbols <= i < 0 passes the bound check,
    is taken by the array as an index from the end, and the generator
    returns a mask whose row numSymbols + i carries the DMRS pattern. *)
Theorem create_dmrs_pattern_negative_index num_rbs num_symbols ty positions i :
  0 <= num_rbs ->
  ty = "Type1" \/ ty = "Type2" ->
  Forall (fun p => - num_symbols <= p) positions ->
  In i positions ->
  - num_symbols <= i < 0 ->
  (i <? num_symbols) = true /\
  axis_index (Z.to_nat num_symbols) i = Ok (Z.to_nat (num_symbols + i)) /\
  exists g, create_dmrs_pattern num_rbs num_symbols ty positions = Ok g /\
    g !! Z.to_nat (num_symbols + i) = Some (dmrs_row ty (num_rbs * 12)) /\
    forall c : nat, Z.of_nat c < num_rbs * 12 ->
      cell g (Z.to_nat (num_symbols + i)) c
      = Some (if dmrs_cell ty c then 1 else 0).
Proof.
  intros Hrbs Hty Hps Hin Hi.
  split; [lia|].
  split.
  { rewrite axis_index_in_range by lia. replace (i <? 0) with true by lia.
    f_equal. lia. }
  destruct (create_dmrs_pattern_rows num_rbs num_symbols ty positions)
    as (g & Hg & Hlen & Hrows); [lia | lia | done |].
  exists g. split; [done|].
  assert (g !! Z.to_nat (num_symbols + i) = Some (dmrs_row ty (num_rbs * 12)))
    as Hrow.
  { rewrite Hrows by lia.
    pose proof (selects_in num_symbols positions i Hin) as Hsel.
    unfold row_of_position in Hsel. replace (i <? 0) with true in Hsel by lia.
    rewrite Hsel by lia. done. }
  split; [done|].
  intros c Hc. unfold cell. rewrite Hrow. by apply dmrs_row_lookup.
Qed.

Lemma create_dmrs_pattern_negative_index_witness :
  exists g, create_dmrs_pattern 1 4 "Type2" [2; -1] = Ok g /\
    g !! 3%nat = Some [1; 1; 0; 0; 0; 0; 1; 1; 0; 0; 0; 0].
Proof.
  destruct (create_dmrs_pattern_negative_index 1 4 "Type2" [2; -1] (-1))
    as (_ & _ & g & Hg & Hrow & _).
  - lia.
  - right. reflexivity.
  - repeat constructor; lia.
  - simpl. lia.
  - lia.
  - exists g. split; [exact Hg | exact Hrow].
Defined.

(** ** Theorems: the Type2 mask *)

Lemma alter_replicate {A} (f : A -> A) (x : A) n i :
  (i < n)%nat ->
  alter f i (replicate n x) = replicate i x ++ f x :: replicate (n - S i) x.
Proof.
  revert i. induction n as [|n IH]; intros i Hi; [lia|].
  destruct i as [|i]; simpl.
  - by rewrite Nat.sub_0_r.
  - f_equal. apply IH. lia.
Qed.

Lemma count_eq_app v (g1 g2 : grid) :
  count_eq v (g1 ++ g2) = count_eq v g1 + count_eq v g2.
Proof. unfold count_eq. apply sum_over_app. Qed.

Lemma count_eq_replicate v n (row : list Z) :
  count_eq v (replicate n row)
  = Z.of_nat n * sum_over (fun x => if x =? v then 1 else 0) row.
Proof. unfold count_eq. apply sum_over_replicate. Qed.

Lemma mark_type2_row_lookup total (row : list Z) (j : nat) x :
  Z.of_nat (length row) = total ->
  row !! j = Some x ->
  mark_type2_row total row !! j
  = Some (if (Z.of_nat j mod 6 <? 2) && (6 * (Z.of_nat j / 6) + 2 <=? total)
          then 1 else x).
Proof.
  intros Hlen Hj. rewrite mark_type2_row_mask by done.
  rewrite lookup_set_where, Hj. done.
Qed.

(** C9: with 10 resource blocks, at least 3 symbols and the position set
    {2}, the Type2 mask has 40 marked cells, all in row 2, at the first two
    subcarriers of each of the 20 groups of six; and on a row of any width
    the loop marks a group only when two subcarriers are left for it, so a
    last group of one subcarrier stays unmarked. *)
Theorem create_dmrs_pattern_type2 :
  (forall num_symbols, 3 <= num_symbols ->
     exists g, create_dmrs_pattern 10 num_symbols "Type2" [2] = Ok g /\
       has_shape (Z.to_nat num_symbols) 120 g /\
       count_eq 1 g = 40 /\
       forall r c, cell g r c = Some 1 <->
                   r = 2%nat /\ (c < 120)%nat /\ Z.of_nat c mod 6 < 2) /\
  (forall total (row : list Z) (j : nat) x,
     Z.of_nat (length row) = total -> row !! j = Some x ->
     mark_type2_row total row !! j
     = Some (if (Z.of_nat j mod 6 <? 2) && (6 * (Z.of_nat j / 6) + 2 <=? total)
             then 1 else x)) /\
  (forall q, 0 <= q ->
     mark_type2_row (6 * q + 1) (zero_row (6 * q + 1)) !! Z.to_nat (6 * q)
     = Some 0 /\
     mark_type2_row (6 * q + 2) (zero_row (6 * q + 2)) !! Z.to_nat (6 * q)
     = Some 1).
Proof.
  split; [|split].
  - intros ns Hns.
    set (Z0 := zero_row 120).
    assert (create_dmrs_pattern 10 ns "Type2" [2]
            = Ok (replicate 2 Z0 ++ mark_type2_row 120 Z0
                    :: replicate (Z.to_nat ns - 3) Z0)) as Hg.
    { unfold create_dmrs_pattern. rewrite np_zeros_returns by lia.
      cbn [mbind result_bind String.eqb Ascii.eqb Bool.eqb for_each].
      replace (2 <? ns) with true by lia.
      change (10 * 12) with 120. fold (zero_row 120). fold Z0.
      rewrite (mark_type2_alter 120 2 2).
      - cbn [mbind result_bind]. f_equal. apply alter_replicate. lia.
      - rewrite length_replicate. rewrite axis_index_in_range by lia. done. }
    eexists. split; [exact Hg|].
    assert (length Z0 = 120%nat) as HZ0 by done.
    assert (mark_type2_row 120 Z0 = set_where (type2_mask 120) 1 Z0) as HM.
    { by apply mark_type2_row_mask. }
    split; [|split].
    + split.
      * rewrite length_app. simpl. rewrite !length_replicate. lia.
      * apply Forall_app. split; [by apply Forall_replicate|].
        apply Forall_cons. split; [|by apply Forall_replicate].
        rewrite HM. by rewrite length_set_where.
    + rewrite count_eq_app. unfold count_eq at 2. cbn [sum_over foldr].
      fold (sum_over (sum_over (fun x : Z => if x =? 1 then 1 else 0))
              (replicate (Z.to_nat ns - 3) Z0)).
      fold (count_eq 1 (replicate (Z.to_nat ns - 3) Z0)).
      rewrite !count_eq_replicate.
      replace (sum_over (fun x : Z => if x =? 1 then 1 else 0) Z0) with 0
        by (by vm_compute).
      replace (sum_over (fun x : Z => if x =? 1 then 1 else 0)
                 (mark_type2_row 120 Z0)) with 40 by (by vm_compute).
      lia.
    + intros r c. unfold cell.
      destruct (decide (r < 2)%nat) as [Hlt|Hge].
      * rewrite lookup_app_l by (rewrite length_replicate; lia).
        rewrite lookup_replicate_2 by done.
        split; [|lia]. intros Hc. apply lookup_replicate_1 in Hc. lia.
      * rewrite lookup_app_r by (rewrite length_replicate; lia).
        rewrite length_replicate.
        destruct (r - 2)%nat as [|k] eqn:Ek; simpl.
        -- rewrite HM, lookup_set_where.
           assert (r = 2%nat) as -> by lia.
           destruct (Z0 !! c) as [x|] eqn:Ec; simpl.
           ++ apply lookup_replicate_1 in Ec as [-> Hc].
              unfold type2_mask.
              pose proof (Z.div_mod (Z.of_nat c) 6) as Hdm.
              pose proof (Z.mod_pos_bound (Z.of_nat c) 6) as Hmb.
              replace (6 * (Z.of_nat c / 6) + 2 <=? 120) with true by lia.
              rewrite andb_true_r.
              destruct (Z.ltb_spec (Z.of_nat c mod 6) 2); split;
                try done; lia.
           ++ apply lookup_replicate_None in Ec.
              split; [done|]. lia.
        -- split; [|lia]. intros Hc.
           destruct (replicate (Z.to_nat ns - 3) Z0 !! k) as [row|] eqn:Er;
             [|done].
           apply lookup_replicate_1 in Er as [-> _].
           apply lookup_replicate_1 in Hc. lia.
  - intros total row j x. apply mark_type2_row_lookup.
  - intros q Hq. split.
    + erewrite mark_type2_row_lookup;
        [| by rewrite length_zero_row, Z2Nat.id by lia
         | apply lookup_replicate_2; lia].
      rewrite Z2Nat.id by lia.
      replace (6 * q mod 6) with 0 by (rewrite Z.mul_comm, Z.mod_mul; lia).
      replace (6 * q / 6) with q by (rewrite Z.mul_comm, Z.div_mul; lia).
      simpl. by replace (6 * q + 2 <=? 6 * q + 1) with false by lia.
    + erewrite mark_type2_row_lookup;
        [| by rewrite length_zero_row, Z2Nat.id by lia
         | apply lookup_replicate_2; lia].
      rewrite Z2Nat.id by lia.
      replace (6 * q mod 6) with 0 by (rewrite Z.mul_comm, Z.mod_mul; lia).
      replace (6 * q / 6) with q by (rewrite Z.mul_comm, Z.div_mul; lia).
      simpl. by replace (6 * q + 2 <=? 6 * q + 2) with true by lia.
Qed.

Lemma create_dmrs_pattern_type2_witness :
  exists g, create_dmrs_pattern 10 3 "Type2" [2] = Ok g /\ count_eq 1 g = 40.
Proof.
  destruct (proj1 create_dmrs_pattern_type2 3) as (g & Hg & _ & Hcount & _).
  - lia.
  - exists g. split; [exact Hg | exact Hcount].
Defined.

(** ** Lemmas: the resource grid *)

Lemma has_shape_map_length n m (g : grid) :
  has_shape n m g -> map length g = replicate n m.
Proof.
  intros [<- Hrows]. induction Hrows as [|row g Hrow Hg IH]; simpl; [done|].
  by rewrite Hrow, IH.
Qed.

Lemma has_shape_cell n m (g : grid) r c :
  has_shape n m g -> (r < n)%nat -> (c < m)%nat -> exists x, cell g r c = Some x.
Proof.
  intros [Hn Hrows] Hr Hc. unfold cell.
  destruct (lookup_lt_is_Some_2 g r) as [row Hrow]; [lia|].
  rewrite Hrow. rewrite Forall_lookup in Hrows.
  apply lookup_lt_is_Some_2. rewrite (Hrows _ _ Hrow). done.
Qed.

Lemma mask_assign_returns n m (g mask : grid) key v :
  has_shape n m g -> has_shape n m mask ->
  mask_assign g mask key v
  = Ok (zip_with (zip_with (fun x k => if k =? key then v else x)) g mask).
Proof.
  intros Hg Hmask. unfold mask_assign.
  rewrite (has_shape_map_length n m g Hg), (has_shape_map_length n m mask Hmask).
  by rewrite bool_decide_eq_true_2.
Qed.

Lemma mask_assign_inv (g mask : grid) key v g' :
  mask_assign g mask key v = Ok g' ->
  g' = zip_with (zip_with (fun x k => if k =? key then v else x)) g mask.
Proof.
  unfold mask_assign. case_bool_decide; [|discriminate]. by intros [= <-].
Qed.

Lemma has_shape_zip n m (f : Z -> Z -> Z) (g mask : grid) :
  has_shape n m g -> has_shape n m mask ->
  has_shape n m (zip_with (zip_with f) g mask).
Proof.
  intros [Hn Hrows] [Hn' Hrows']. split.
  - rewrite length_zip_with. lia.
  - apply Forall_lookup. intros r row Hrow.
    apply lookup_zip_with_Some in Hrow as (x & y & -> & Hx & Hy).
    rewrite Forall_lookup in Hrows, Hrows'.
    rewrite length_zip_with, (Hrows _ _ Hx), (Hrows' _ _ Hy). lia.
Qed.

Lemma classified_zip (g mask : grid) key v :
  0 <= v <= 3 -> classified g ->
  classified (zip_with (zip_with (fun x k => if k =? key then v else x)) g mask).
Proof.
  intros Hv Hg. apply Forall_lookup. intros r row Hrow.
  apply lookup_zip_with_Some in Hrow as (x & y & -> & Hx & Hy).
  apply Forall_lookup. intros c z Hz.
  apply lookup_zip_with_Some in Hz as (a & k & -> & Ha & Hk).
  destruct (k =? key); [done|].
  unfold classified in Hg. rewrite Forall_lookup in Hg.
  specialize (Hg _ _ Hx). rewrite Forall_lookup in Hg. by eapply Hg.
Qed.

Lemma cell_zip (f : Z -> Z -> Z) (g mask : grid) r c x k :
  cell g r c = Some x -> cell mask r c = Some k ->
  cell (zip_with (zip_with f) g mask) r c = Some (f x k).
Proof.
  unfold cell. intros Hx Hk.
  destruct (g !! r) as [row|] eqn:Er; [|done].
  destruct (mask !! r) as [mrow|] eqn:Em; [|done].
  rewrite lookup_zip_with, Er, Em. simpl.
  by rewrite lookup_zip_with, Hx, Hk.
Qed.

Lemma cell_mask_assigned n m (g mask : grid) v r c x :
  has_shape n m mask -> (r < n)%nat -> (c < m)%nat ->
  cell g r c = Some x ->
  cell (zip_with (zip_with (fun x k => if k =? 1 then v else x)) g mask) r c
  = Some (if covers mask r c then v else x).
Proof.
  intros Hmask Hr Hc Hx.
  destruct (has_shape_cell n m mask r c Hmask Hr Hc) as [k Hk].
  rewrite (cell_zip _ g mask r c x k Hx Hk). unfold covers. by rewrite Hk.
Qed.

Lemma has_shape_assign_all n m v (g : grid) :
  has_shape n m g -> has_shape n m (assign_all v g).
Proof.
  intros [Hn Hrows]. unfold assign_all. split; [by rewrite length_map|].
  apply Forall_map. eapply Forall_impl; [exact Hrows|].
  intros row Hrow. simpl. by rewrite length_assign_slice.
Qed.

Lemma assign_all_ones (g : grid) :
  assign_all 1 g = map (fun row => replicate (length row) 1) g.
Proof. unfold assign_all. apply map_ext. intros row. apply assign_slice_full. Qed.

Lemma classified_zeros n m : classified (replicate n (replicate m 0)).
Proof. apply Forall_replicate, Forall_replicate. lia. Qed.

Lemma classified_assign_all (g : grid) : classified (assign_all 1 g).
Proof.
  rewrite assign_all_ones. apply Forall_map, Forall_true. intros row. simpl.
  apply Forall_replicate. lia.
Qed.

Lemma cell_zeros n m r c :
  (r < n)%nat -> (c < m)%nat -> cell (replicate n (replicate m 0)) r c = Some 0.
Proof.
  intros Hr Hc. unfold cell. rewrite lookup_replicate_2 by done.
  by apply lookup_replicate_2.
Qed.

Lemma cell_assign_all n m r c :
  (r < n)%nat -> (c < m)%nat ->
  cell (assign_all 1 (replicate n (replicate m 0))) r c = Some 1.
Proof.
  intros Hr Hc. rewrite assign_all_ones. unfold cell.
  rewrite list_lookup_fmap, lookup_replicate_2 by done. simpl.
  rewrite length_replicate. by apply lookup_replicate_2.
Qed.

Lemma create_pdcch_region_returns num_rbs num_symbols coreset_duration :
  0 <= num_rbs -> 0 <= num_symbols ->
  returns (create_pdcch_region num_rbs num_symbols coreset_duration).
Proof.
  intros Hrbs Hns. unfold create_pdcch_region.
  rewrite np_zeros_returns by lia. cbn [mbind result_bind].
  destruct (for_each_returns
              (fun g : grid => length g = Z.to_nat num_symbols)
              (fun p => 0 <= p < num_symbols)
              (range (Z.min coreset_duration num_symbols))
              (fun sym_idx g => assign_row_slice g sym_idx None None 1 1))
    with (s := replicate (Z.to_nat num_symbols)
                 (replicate (Z.to_nat (num_rbs * 12)) 0))
    as (g & Hg & _).
  - intros p g Hp Hlen. unfold assign_row_slice.
    rewrite axis_index_in_range by lia. cbn [mbind result_bind].
    eexists. split; [done|]. by rewrite length_alter.
  - unfold range. apply Forall_map, Forall_forall. intros k Hk.
    apply list_elem_of_In, in_seq in Hk. simpl. lia.
  - apply length_replicate.
  - by exists g.
Qed.

Lemma row_count_total (row : list Z) :
  Forall (fun x => 0 <= x <= 3) row ->
  sum_over (fun x => if x =? 0 then 1 else 0) row
  + sum_over (fun x => if x =? 1 then 1 else 0) row
  + sum_over (fun x => if x =? 2 then 1 else 0) row
  + sum_over (fun x => if x =? 3 then 1 else 0) row
  = Z.of_nat (length row).
Proof.
  induction 1 as [|x row Hx Hrow IH]; [done|]. cbn [sum_over foldr length].
  fold (sum_over (fun x => if x =? 0 then 1 else 0) row).
  fold (sum_over (fun x => if x =? 1 then 1 else 0) row).
  fold (sum_over (fun x => if x =? 2 then 1 else 0) row).
  fold (sum_over (fun x => if x =? 3 then 1 else 0) row).
  assert (x = 0 \/ x = 1 \/ x = 2 \/ x = 3) as Hc by lia.
  destruct Hc as [-> | [-> | [-> | ->]]]; simpl; lia.
Qed.

Lemma count_eq_cons v row (g : grid) :
  count_eq v (row :: g)
  = sum_over (fun x => if x =? v then 1 else 0) row + count_eq v g.
Proof. reflexivity. Qed.

Lemma grid_count_total n m (g : grid) :
  has_shape n m g -> classified g ->
  count_eq 0 g + count_eq 1 g + count_eq 2 g + count_eq 3 g
  = Z.of_nat n * Z.of_nat m.
Proof.
  intros [<- Hrows] Hcls.
  induction g as [|row g IH]; [done|].
  apply Forall_cons in Hrows as [Hrow Hrows].
  apply Forall_cons in Hcls as [Hc Hcls].
  specialize (IH Hrows Hcls). pose proof (row_count_total row Hc) as Hsum.
  rewrite !count_eq_cons. cbn [length]. rewrite Nat2Z.inj_succ, Z.mul_succ_l.
  rewrite Hrow in Hsum. lia.
Qed.

(** ** Theorems: the resource grid *)

(** The grid of the block, cell by cell. *)
Lemma resource_grid_cells num_rbs num_symbols
    (show_dmrs show_pdcch show_pdsch : bool) dmrs_type dmrs_symbols
    coreset_duration :
  0 <= num_rbs -> 0 <= num_symbols ->
  Forall (fun p => - num_symbols <= p) dmrs_symbols ->
  exists g pdcch dmrs,
    resource_grid num_rbs num_symbols show_dmrs show_pdcch show_pdsch
      dmrs_type dmrs_symbols coreset_duration = Ok g /\
    create_pdcch_region num_rbs num_symbols coreset_duration = Ok pdcch /\
    create_dmrs_pattern num_rbs num_symbols dmrs_type dmrs_symbols = Ok dmrs /\
    has_shape (Z.to_nat num_symbols) (Z.to_nat (num_rbs * 12)) g /\
    forall r c, (r < Z.to_nat num_symbols)%nat ->
                (c < Z.to_nat (num_rbs * 12))%nat ->
      cell g r c
      = Some (if show_dmrs && covers dmrs r c then 3
              else if show_pdcch && covers pdcch r c then 2
              else if show_pdsch then 1 else 0).
Proof.
  intros Hrbs Hns Hps.
  destruct (create_pdcch_region_returns num_rbs num_symbols coreset_duration
              Hrbs Hns) as [pdcch Hpdcch].
  destruct (create_dmrs_pattern_rows num_rbs num_symbols dmrs_type dmrs_symbols
              Hrbs Hns Hps) as (dmrs & Hdmrs & _).
  pose proof (create_pdcch_region_shape _ _ _ _ Hpdcch) as Spdcch.
  pose proof (create_dmrs_pattern_shape _ _ _ _ _ Hdmrs) as Sdmrs.
  set (n := Z.to_nat num_symbols) in *.
  set (m := Z.to_nat (num_rbs * 12)) in *.
  set (base := if show_pdsch then assign_all 1 (replicate n (replicate m 0))
               else replicate n (replicate m 0)).
  assert (has_shape n m base) as Sbase.
  { unfold base. destruct show_pdsch;
      [apply has_shape_assign_all|]; apply has_shape_zeros. }
  assert (forall r c, (r < n)%nat -> (c < m)%nat ->
            cell base r c = Some (if show_pdsch then 1 else 0)) as Cbase.
  { intros r c Hr Hc. unfold base. destruct show_pdsch;
      [by apply cell_assign_all | by apply cell_zeros]. }
  set (f2 := fun x k : Z => if k =? 1 then 2 else x).
  set (f3 := fun x k : Z => if k =? 1 then 3 else x).
  set (g1 := if show_pdcch then zip_with (zip_with f2) base pdcch else base).
  assert (has_shape n m g1) as Sg1.
  { unfold g1. destruct show_pdcch; [by apply has_shape_zip | done]. }
  assert (forall r c, (r < n)%nat -> (c < m)%nat ->
            cell g1 r c = Some (if show_pdcch && covers pdcch r c then 2
                                else if show_pdsch then 1 else 0)) as Cg1.
  { intros r c Hr Hc. unfold g1. destruct show_pdcch; simpl.
    - unfold f2. erewrite cell_mask_assigned; eauto.
    - by apply Cbase. }
  set (g2 := if show_dmrs then zip_with (zip_with f3) g1 dmrs else g1).
  exists g2, pdcch, dmrs.
  split; [|split; [done|split; [done|split]]].
  - unfold resource_grid. rewrite np_zeros_returns by lia.
    cbn [mbind result_bind]. rewrite Hpdcch, Hdmrs.
    fold n m base. cbn [mbind result_bind].
    assert ((if show_pdcch then mask_assign base pdcch 1 2 else Ok base)
            = Ok g1) as ->.
    { unfold g1. destruct show_pdcch; [|done].
      by apply (mask_assign_returns n m). }
    cbn [mbind result_bind].
    assert ((if show_dmrs then mask_assign g1 dmrs 1 3 else Ok g1)
            = Ok g2) as ->.
    { unfold g2. destruct show_dmrs; [|done].
      by apply (mask_assign_returns n m). }
    done.
  - unfold g2. destruct show_dmrs; [by apply has_shape_zip | done].
  - intros r c Hr Hc. unfold g2. destruct show_dmrs; simpl.
    + unfold f3. erewrite cell_mask_assigned; eauto.
    + by apply Cg1.
Qed.

(** C5: in the grid the block builds, whatever layers are enabled, a cell
    the DMRS mask covers is DMRS (3); otherwise a cell the CORESET mask covers
    is PDCCH (2); otherwise the cell is PDSCH (1) when the fill is enabled and
    empty (0) when it is not.  Later layers override earlier ones. *)
Theorem resource_grid_precedence num_rbs num_symbols
    (show_dmrs show_pdcch show_pdsch : bool) dmrs_type dmrs_symbols
    coreset_duration :
  0 <= num_rbs -> 0 <= num_symbols ->
  Forall (fun p => - num_symbols <= p) dmrs_symbols ->
  exists g pdcch dmrs,
    resource_grid num_rbs num_symbols show_dmrs show_pdcch show_pdsch
      dmrs_type dmrs_symbols coreset_duration = Ok g /\
    create_pdcch_region num_rbs num_symbols coreset_duration = Ok pdcch /\
    create_dmrs_pattern num_rbs num_symbols dmrs_type dmrs_symbols = Ok dmrs /\
    has_shape (Z.to_nat num_symbols) (Z.to_nat (num_rbs * 12)) g /\
    forall r c, (r < Z.to_nat num_symbols)%nat ->
                (c < Z.to_nat (num_rbs * 12))%nat ->
      (covers dmrs r c = true -> show_dmrs = true -> cell g r c = Some 3) /\
      (covers pdcch r c = true -> show_pdcch = true ->
       cell g r c = Some (if show_dmrs && covers dmrs r c then 3 else 2)) /\
      cell g r c
      = Some (if show_dmrs && covers dmrs r c then 3
              else if show_pdcch && covers pdcch r c then 2
              else if show_pdsch then 1 else 0).
Proof.
  intros Hrbs Hns Hps.
  destruct (resource_grid_cells num_rbs num_symbols show_dmrs show_pdcch
              show_pdsch dmrs_type dmrs_symbols coreset_duration Hrbs Hns Hps)
    as (g & pdcch & dmrs & Hg & Hpdcch & Hdmrs & Hshape & Hcells).
  exists g, pdcch, dmrs. repeat (split; [done|]).
  intros r c Hr Hc. rewrite (Hcells r c Hr Hc).
  split; [|split; [|done]].
  - by intros -> ->.
  - intros -> ->. by destruct (show_dmrs && covers dmrs r c).
Qed.

Lemma resource_grid_precedence_witness :
  exists g, resource_grid 1 4 true true true "Type1" [2] 2 = Ok g /\
    cell g 2 0 = Some 3 /\ cell g 0 0 = Some 2 /\ cell g 2 1 = Some 1.
Proof.
  destruct (resource_grid_precedence 1 4 true true true "Type1" [2] 2)
    as (g & pdcch & dmrs & Hg & Hpdcch & Hdmrs & _ & Hcells).
  - lia.
  - lia.
  - repeat constructor; lia.
  - exists g. split; [exact Hg|].
    vm_compute in Hpdcch. injection Hpdcch as <-.
    vm_compute in Hdmrs. injection Hdmrs as <-.
    split; [|split].
    + apply (Hcells 2%nat 0%nat); [vm_compute; lia | vm_compute; lia].
    + apply (Hcells 0%nat 0%nat); [vm_compute; lia | vm_compute; lia].
    + apply (Hcells 2%nat 1%nat); [vm_compute; lia | vm_compute; lia].
Defined.

Lemma resource_grid_classified num_rbs num_symbols
    (show_dmrs show_pdcch show_pdsch : bool) dmrs_type dmrs_symbols
    coreset_duration g :
  resource_grid num_rbs num_symbols show_dmrs show_pdcch show_pdsch
    dmrs_type dmrs_symbols coreset_duration = Ok g ->
  has_shape (Z.to_nat num_symbols) (Z.to_nat (num_rbs * 12)) g /\ classified g.
Proof.
  unfold resource_grid.
  destruct (np_zeros num_symbols (num_rbs * 12)) as [g0|e] eqn:E0;
    cbn [mbind result_bind]; [|discriminate].
  apply np_zeros_shape in E0 as (-> & _ & _).
  set (n := Z.to_nat num_symbols). set (m := Z.to_nat (num_rbs * 12)).
  set (base := if show_pdsch then assign_all 1 (replicate n (replicate m 0))
               else replicate n (replicate m 0)).
  assert (has_shape n m base /\ classified base) as [Sbase Kbase].
  { unfold base. destruct show_pdsch.
    - split; [apply has_shape_assign_all, has_shape_zeros
             | apply classified_assign_all].
    - split; [apply has_shape_zeros | apply classified_zeros]. }
  clearbody base.
  assert (forall g1,
    (if show_pdcch
     then pdcch ← create_pdcch_region num_rbs num_symbols coreset_duration;
          mask_assign base pdcch 1 2
     else Ok base) = Ok g1 -> has_shape n m g1 /\ classified g1) as Hstep1.
  { intros g1. destruct show_pdcch; [|by intros [= <-]].
    destruct (create_pdcch_region _ _ _) as [pdcch|e] eqn:Ep;
      cbn [mbind result_bind]; [|discriminate].
    apply create_pdcch_region_shape in Ep. intros Hm.
    apply mask_assign_inv in Hm as ->.
    split; [by apply has_shape_zip | by apply classified_zip]. }
  destruct (if show_pdcch then _ else _) as [g1|e];
    cbn [mbind result_bind]; [|discriminate].
  destruct (Hstep1 g1 eq_refl) as [Sg1 Kg1].
  destruct show_dmrs; cbn [mbind result_bind]; [|by intros [= <-]].
  destruct (create_dmrs_pattern _ _ _ _) as [dmrs|e] eqn:Ed;
    cbn [mbind result_bind]; [|discriminate].
  apply create_dmrs_pattern_shape in Ed.
  destruct (mask_assign g1 dmrs 1 3) as [g2|e] eqn:Em;
    cbn [mbind result_bind]; [|discriminate].
  intros [= <-]. apply mask_assign_inv in Em as ->.
  split; [by apply has_shape_zip | by apply classified_zip].
Qed.

Lemma resource_grid_returns num_rbs num_symbols
    (show_dmrs show_pdcch show_pdsch : bool) dmrs_type dmrs_symbols
    coreset_duration :
  0 <= num_rbs -> 0 <= num_symbols ->
  show_dmrs = false \/ Forall (fun p => - num_symbols <= p) dmrs_symbols ->
  returns (resource_grid num_rbs num_symbols show_dmrs show_pdcch show_pdsch
             dmrs_type dmrs_symbols coreset_duration).
Proof.
  intros Hrbs Hns [-> | Hps].
  - destruct (resource_grid_cells num_rbs num_symbols false show_pdcch
                show_pdsch dmrs_type [] coreset_duration Hrbs Hns)
      as (g & _ & _ & Hg & _); [done|].
    exists g. exact Hg.
  - destruct (resource_grid_cells num_rbs num_symbols show_dmrs show_pdcch
                show_pdsch dmrs_type dmrs_symbols coreset_duration Hrbs Hns Hps)
      as (g & _ & _ & Hg & _).
    by exists g.
Qed.

(** C6: for at least one resource block and 1 to 14 symbols, whatever layers
    are enabled, the four class counts of the built grid add up to
    numRBs * 12 * numSymbols, the total the statistics report; and the grid
    is built whenever the DMRS layer is off or no DMRS position lies below
    - numSymbols. *)
Theorem resource_statistics_total num_rbs num_symbols
    (show_dmrs show_pdcch show_pdsch : bool) dmrs_type dmrs_symbols
    coreset_duration :
  1 <= num_rbs -> 1 <= num_symbols <= 14 ->
  (forall g,
     resource_grid num_rbs num_symbols show_dmrs show_pdcch show_pdsch
       dmrs_type dmrs_symbols coreset_duration = Ok g ->
     let st := resource_statistics num_rbs num_symbols g in
     empty_res st + pdsch_res st + pdcch_res st + dmrs_res st
     = num_rbs * 12 * num_symbols /\
     total_res st = num_rbs * 12 * num_symbols) /\
  (show_dmrs = false \/ Forall (fun p => - num_symbols <= p) dmrs_symbols ->
   returns (resource_grid num_rbs num_symbols show_dmrs show_pdcch show_pdsch
              dmrs_type dmrs_symbols coreset_duration)).
Proof.
  intros Hrbs Hns. split.
  - intros g Hg. apply resource_grid_classified in Hg as [Hshape Hcls].
    pose proof (grid_count_total _ _ g Hshape Hcls) as Hsum.
    cbn [resource_statistics empty_res pdsch_res pdcch_res dmrs_res total_res].
    split; [|done]. rewrite Hsum. rewrite !Z2Nat.id by lia. lia.
  - apply resource_grid_returns; lia.
Qed.

Lemma resource_statistics_total_witness :
  exists g, resource_grid 1 4 true true true "Type1" [2] 2 = Ok g /\
    count_eq 0 g + count_eq 1 g + count_eq 2 g + count_eq 3 g = 48.
Proof.
  destruct (resource_statistics_total 1 4 true true true "Type1" [2] 2)
    as [Hsum Hret]; [lia | lia |].
  destruct Hret as [g Hg]; [right; repeat constructor; lia|].
  exists g. split; [exact Hg|]. apply (Hsum g Hg).
Defined.


(** * Further properties of the engine *)

(** ** The CORESET mask *)

Lemma coreset_loop m n len : forall a,
  (a + len <= n)%nat ->
  for_each (map Z.of_nat (seq a len))
    (fun sym_idx g => assign_row_slice g sym_idx None None 1 1)
    (replicate a (replicate m 1) ++ replicate (n - a) (replicate m 0))
  = Ok (replicate (a + len) (replicate m 1)
        ++ replicate (n - (a + len)) (replicate m 0)).
Proof.
  induction len as [|len IH]; intros a Ha; cbn [seq map for_each].
  - by rewrite Nat.add_0_r.
  - unfold assign_row_slice.
    rewrite axis_index_in_range
      by (rewrite length_app, !length_replicate; lia).
    replace (Z.of_nat a <? 0) with false by lia.
    rewrite Nat2Z.id. cbn [mbind result_bind].
    rewrite alter_app_r_alt by (rewrite length_replicate; lia).
    rewrite length_replicate, Nat.sub_diag.
    rewrite alter_replicate by lia. cbn [replicate app].
    rewrite assign_slice_full, length_replicate.
    rewrite cons_middle, app_assoc, <- replicate_S_end.
    replace (n - a - 1)%nat with (n - S a)%nat by lia.
    rewrite IH by lia. do 3 f_equal; lia.
Qed.

Lemma create_pdcch_region_rows num_rbs num_symbols coreset_duration :
  0 <= num_rbs -> 0 <= num_symbols ->
  let m := Z.to_nat (num_rbs * 12) in
  let k := Z.to_nat (Z.min coreset_duration num_symbols) in
  create_pdcch_region num_rbs num_symbols coreset_duration
  = Ok (replicate k (replicate m 1)
        ++ replicate (Z.to_nat num_symbols - k) (replicate m 0)).
Proof.
  intros Hrbs Hns m k. unfold create_pdcch_region.
  rewrite np_zeros_returns by lia. cbn [mbind result_bind]. unfold range.
  fold k m.
  pose proof (coreset_loop m (Z.to_nat num_symbols) k 0%nat) as Hloop.
  rewrite Nat.sub_0_r in Hloop. apply Hloop. lia.
Qed.

(** X1: the CORESET mask marks every subcarrier of the first
    min(coreset_duration, num_symbols) symbol rows (none when that is not
    positive) and nothing else, so it holds that many times 12 * num_rbs
    ones; a duration beyond the grid is clamped, never an error. *)
Theorem create_pdcch_region_mask num_rbs num_symbols coreset_duration :
  0 <= num_rbs -> 0 <= num_symbols ->
  exists g, create_pdcch_region num_rbs num_symbols coreset_duration = Ok g /\
    has_shape (Z.to_nat num_symbols) (Z.to_nat (num_rbs * 12)) g /\
    (forall r c, (r < Z.to_nat num_symbols)%nat ->
                 (c < Z.to_nat (num_rbs * 12))%nat ->
       cell g r c
       = Some (if Z.of_nat r <? Z.min coreset_duration num_symbols
               then 1 else 0)) /\
    count_eq 1 g
    = Z.max 0 (Z.min coreset_duration num_symbols) * (num_rbs * 12).
Proof.
  intros Hrbs Hns. eexists.
  split; [by apply create_pdcch_region_rows|].
  set (m := Z.to_nat (num_rbs * 12)).
  set (k := Z.to_nat (Z.min coreset_duration num_symbols)).
  split; [|split].
  - eapply create_pdcch_region_shape. by apply create_pdcch_region_rows.
  - intros r c Hr Hc. unfold cell.
    destruct (Z.ltb_spec (Z.of_nat r) (Z.min coreset_duration num_symbols)).
    + rewrite lookup_app_l by (rewrite length_replicate; lia).
      rewrite lookup_replicate_2 by lia. by apply lookup_replicate_2.
    + rewrite lookup_app_r by (rewrite length_replicate; lia).
      rewrite length_replicate, lookup_replicate_2 by lia.
      by apply lookup_replicate_2.
  - rewrite count_eq_app, !count_eq_replicate, !sum_over_replicate.
    change (if 1 =? 1 then 1 else 0) with 1.
    change (if 0 =? 1 then 1 else 0) with 0. lia.
Qed.

Lemma create_pdcch_region_mask_witness :
  exists g, create_pdcch_region 1 2 3 = Ok g /\ count_eq 1 g = 24.
Proof.
  destruct (create_pdcch_region_mask 1 2 3) as (g & Hg & _ & _ & Hcount);
    [lia | lia |].
  exists g. split; [exact Hg | exact Hcount].
Defined.

(** ** The DMRS mask: positions out of range *)

Lemma for_each_skip {A S} (keep : A -> Prop) `{!forall x, Decision (keep x)}
    (b : A -> S -> result S) (body : A -> S -> result S) (xs : list A) :
  (forall x s, keep x -> body x s = b x s) ->
  (forall x s, ~ keep x -> body x s = Ok s) ->
  forall s, for_each xs body s = for_each (filter keep xs) b s.
Proof.
  intros Hkeep Hskip. induction xs as [|x xs IH]; intros s; [done|].
  rewrite filter_cons. cbn [for_each]. case_decide.
  - cbn [for_each]. rewrite Hkeep by done.
    destruct (b x s); cbn [mbind result_bind]; [apply IH | done].
  - rewrite Hskip by done. cbn [mbind result_bind]. apply IH.
Qed.

Lemma for_each_filter_same {A S} (keep : A -> Prop)
    `{!forall x, Decision (keep x)} (body : A -> S -> result S) (xs : list A) :
  (forall x s, ~ keep x -> body x s = Ok s) ->
  forall s, for_each xs body s = for_each (filter keep xs) body s.
Proof. intros Hskip. by apply for_each_skip. Qed.

(** X2: symbol positions at or beyond num_symbols are dropped without an
    error: the mask is the one of the positions below num_symbols alone, and
    when every position is at or beyond num_symbols it is the all-zero
    array. *)
Theorem create_dmrs_pattern_drops_high_positions num_rbs num_symbols ty
    positions :
  create_dmrs_pattern num_rbs num_symbols ty positions
  = create_dmrs_pattern num_rbs num_symbols ty
      (filter (fun p => p < num_symbols) positions) /\
  (Forall (fun p => num_symbols <= p) positions ->
   create_dmrs_pattern num_rbs num_symbols ty positions
   = np_zeros num_symbols (num_rbs * 12)).
Proof.
  assert (create_dmrs_pattern num_rbs num_symbols ty positions
          = create_dmrs_pattern num_rbs num_symbols ty
              (filter (fun p => p < num_symbols) positions)) as Heq.
  { unfold create_dmrs_pattern.
    destruct (np_zeros num_symbols (num_rbs * 12)) as [g|e];
      cbn [mbind result_bind]; [|done].
    destruct (String.eqb ty "Type1"); [|destruct (String.eqb ty "Type2")].
    - apply for_each_filter_same. intros p s Hp.
      by replace (p <? num_symbols) with false by lia.
    - apply for_each_filter_same. intros p s Hp.
      by replace (p <? num_symbols) with false by lia.
    - done. }
  split; [exact Heq|].
  intros Hall. rewrite Heq.
  replace (filter (fun p => p < num_symbols) positions) with (@nil Z).
  - unfold create_dmrs_pattern.
    destruct (np_zeros num_symbols (num_rbs * 12)) as [g|e];
      cbn [mbind result_bind]; [|done].
    by destruct (String.eqb ty "Type1"), (String.eqb ty "Type2").
  - symmetry. clear Heq. induction Hall as [|p ps Hp Hps IH]; [done|].
    rewrite filter_cons. case_decide; [lia | exact IH].
Qed.

Lemma create_dmrs_pattern_drops_high_positions_witness :
  create_dmrs_pattern 1 4 "Type1" [4; 11]
  = np_zeros 4 (1 * 12).
Proof.
  apply (proj2 (create_dmrs_pattern_drops_high_positions 1 4 "Type1" [4; 11])).
  repeat constructor; lia.
Defined.

Lemma for_each_raises {A S} (I : S -> Prop) (bad : A -> Prop) (e : exn)
    (body : A -> S -> result S) (xs : list A) :
  (forall x s, I s ->
     (exists s', body x s = Ok s' /\ I s') \/ body x s = Raise e) ->
  (forall x s, bad x -> I s -> body x s = Raise e) ->
  forall s, I s -> Exists bad xs -> for_each xs body s = Raise e.
Proof.
  intros Hbody Hbad. induction xs as [|x xs IH]; intros s Hs Hex.
  - inversion Hex.
  - cbn [for_each].
    inversion Hex as [? ? Hx | ? ? Hxs]; subst.
    + by rewrite (Hbad x s Hx Hs).
    + destruct (Hbody x s Hs) as [(s' & -> & Hs') | ->]; [|done].
      cbn [mbind result_bind]. by apply IH.
Qed.

Lemma axis_index_below n i : i < - Z.of_nat n -> axis_index n i = Raise IndexError.
Proof.
  intros Hi. unfold axis_index.
  replace (0 <=? i) with false by lia. cbn [andb].
  replace (- Z.of_nat n <=? i) with false by lia. done.
Qed.

Lemma axis_index_cases n i :
  (exists r, axis_index n i = Ok r) \/ axis_index n i = Raise IndexError.
Proof.
  unfold axis_index.
  destruct ((0 <=? i) && (i <? Z.of_nat n)); [left; eauto|].
  destruct ((- Z.of_nat n <=? i) && (i <? 0)); [left; eauto | by right].
Qed.

Lemma mark_type2_below total i (g : grid) :
  1 < total -> i < - Z.of_nat (length g) ->
  mark_type2 total i g = Raise IndexError.
Proof.
  intros Htotal Hi. unfold mark_type2, range_step.
  destruct (Z.to_nat ((total - 0 + 6 - 1) / 6)) as [|k] eqn:Ek.
  - assert (1 <= (total - 0 + 6 - 1) / 6)
      by (apply Z.div_le_lower_bound; lia). lia.
  - cbn [seq map for_each]. replace (0 + 6 * Z.of_nat 0) with 0 by lia.
    replace (0 <? total - 1) with true by lia.
    unfold assign_row_slice. by rewrite axis_index_below.
Qed.

(** X3: a position below - num_symbols makes the generator raise IndexError
    (the array rejects the row index): always for Type1, and for Type2 as
    soon as there is a resource block. *)
Theorem create_dmrs_pattern_index_error num_rbs num_symbols ty positions :
  0 <= num_symbols ->
  (ty = "Type1" /\ 0 <= num_rbs) \/ (ty = "Type2" /\ 1 <= num_rbs) ->
  Exists (fun p => p < - num_symbols) positions ->
  create_dmrs_pattern num_rbs num_symbols ty positions = Raise IndexError.
Proof.
  intros Hns Hty Hex. unfold create_dmrs_pattern.
  rewrite np_zeros_returns by lia. cbn [mbind result_bind].
  destruct Hty as [[-> Hrbs] | [-> Hrbs]]; cbn [String.eqb Ascii.eqb Bool.eqb].
  - apply (for_each_raises
             (fun g : grid => length g = Z.to_nat num_symbols)
             (fun p => p < - num_symbols));
      [| |apply length_replicate|done].
    + intros p g Hlen. destruct (p <? num_symbols); [|left; eauto].
      unfold assign_row_slice.
      destruct (axis_index_cases (length g) p) as [[r ->] | ->];
        cbn [mbind result_bind]; [left | by right].
      eexists. split; [done|]. by rewrite length_alter.
    + intros p g Hp Hlen. replace (p <? num_symbols) with true by lia.
      unfold assign_row_slice. rewrite axis_index_below by lia. done.
  - apply (for_each_raises
             (fun g : grid => length g = Z.to_nat num_symbols)
             (fun p => p < - num_symbols));
      [| |apply length_replicate|done].
    + intros p g Hlen.
      destruct (Z.ltb_spec p num_symbols) as [Hlt|Hge]; [|left; eauto].
      destruct (axis_index_cases (length g) p) as [[r Hr] | Hr].
      * left. rewrite (mark_type2_alter _ _ r g Hr).
        eexists. split; [done|]. by rewrite length_alter.
      * right. unfold axis_index in Hr.
        destruct ((0 <=? p) && (p <? Z.of_nat (length g))) eqn:E1;
          [discriminate|].
        destruct ((- Z.of_nat (length g) <=? p) && (p <? 0)) eqn:E2;
          [discriminate|].
        apply mark_type2_below; [lia|].
        apply andb_false_iff in E1, E2. lia.
    + intros p g Hp Hlen. replace (p <? num_symbols) with true by lia.
      apply mark_type2_below; lia.
Qed.

Lemma create_dmrs_pattern_index_error_witness :
  create_dmrs_pattern 1 4 "Type2" [2; -5] = Raise IndexError.
Proof.
  apply (create_dmrs_pattern_index_error 1 4 "Type2" [2; -5]).
  - lia.
  - right. split; [reflexivity | lia].
  - apply Exists_cons_tl, Exists_cons_hd. lia.
Defined.

Lemma for_each_unchanged {A S} (body : A -> S -> result S) (xs : list A) s :
  (forall x s, body x s = Ok s) -> for_each xs body s = Ok s.
Proof.
  intros Hbody. induction xs as [|x xs IH]; [done|].
  cbn [for_each]. rewrite Hbody. cbn [mbind result_bind]. exact IH.
Qed.

(** X4: a DMRS type other than the two spelled "Type1" and "Type2" marks
    nothing and checks nothing: whatever the positions, the all-zero mask is
    returned.  The same holds for Type2 on a grid of zero resource blocks,
    where no subcarrier group is ever visited. *)
Theorem create_dmrs_pattern_unmarked num_rbs num_symbols ty positions :
  0 <= num_symbols ->
  (ty <> "Type1" /\ ty <> "Type2" /\ 0 <= num_rbs) \/
  (ty = "Type2" /\ num_rbs = 0) ->
  create_dmrs_pattern num_rbs num_symbols ty positions
  = Ok (replicate (Z.to_nat num_symbols) (zero_row (num_rbs * 12))).
Proof.
  intros Hns Hcase. unfold create_dmrs_pattern.
  rewrite np_zeros_returns by lia. cbn [mbind result_bind].
  fold (zero_row (num_rbs * 12)).
  destruct Hcase as [(H1 & H2 & _) | [-> ->]].
  - apply String.eqb_neq in H1, H2. by rewrite H1, H2.
  - cbn [String.eqb Ascii.eqb Bool.eqb].
    apply for_each_unchanged. intros p g.
    destruct (p <? num_symbols); [|done].
    unfold mark_type2. by vm_compute.
Qed.

Lemma create_dmrs_pattern_unmarked_witness :
  create_dmrs_pattern 1 2 "Type 1" [0; -7]
  = Ok (replicate 2 (zero_row 12)).
Proof.
  apply (create_dmrs_pattern_unmarked 1 2 "Type 1" [0; -7]).
  - lia.
  - left. repeat split; [discriminate | discriminate | lia].
Defined.

Lemma selects_same_positions ns (ps ps' : list Z) r :
  (forall p, In p ps <-> In p ps') -> selects ns ps r = selects ns ps' r.
Proof.
  intros Hsame. unfold selects. apply eq_true_iff_eq.
  rewrite !existsb_exists. split; intros (p & Hin & Hp); exists p;
    (split; [by apply Hsame | done]).
Qed.

(** X5: the mask depends only on which positions occur, not on their order
    or on repetitions: two position lists with the same elements, none below
    - num_symbols, give the same mask. *)
Theorem create_dmrs_pattern_positions_as_set num_rbs num_symbols ty
    (positions positions' : list Z) :
  0 <= num_rbs -> 0 <= num_symbols ->
  Forall (fun p => - num_symbols <= p) positions ->
  (forall p, In p positions <-> In p positions') ->
  returns (create_dmrs_pattern num_rbs num_symbols ty positions) /\
  create_dmrs_pattern num_rbs num_symbols ty positions
  = create_dmrs_pattern num_rbs num_symbols ty positions'.
Proof.
  intros Hrbs Hns Hps Hsame.
  assert (Forall (fun p => - num_symbols <= p) positions') as Hps'.
  { rewrite List.Forall_forall in *. intros p Hp. apply Hps. by apply Hsame. }
  destruct (create_dmrs_pattern_rows num_rbs num_symbols ty positions
              Hrbs Hns Hps) as (g & Hg & Hlen & Hrows).
  destruct (create_dmrs_pattern_rows num_rbs num_symbols ty positions'
              Hrbs Hns Hps') as (g' & Hg' & Hlen' & Hrows').
  split; [by exists g|]. rewrite Hg, Hg'. f_equal.
  apply list_eq. intros r.
  destruct (decide (r < Z.to_nat num_symbols)%nat) as [Hr|Hr].
  - rewrite Hrows, Hrows' by done.
    by rewrite (selects_same_positions num_symbols positions positions' r).
  - rewrite !lookup_ge_None_2 by lia. done.
Qed.

Lemma create_dmrs_pattern_positions_as_set_witness :
  create_dmrs_pattern 1 4 "Type1" [2; -1]
  = create_dmrs_pattern 1 4 "Type1" [-1; 2; 2].
Proof.
  apply (create_dmrs_pattern_positions_as_set 1 4 "Type1" [2; -1] [-1; 2; 2]).
  - lia.
  - lia.
  - repeat constructor; lia.
  - intros p. simpl. tauto.
Defined.

(** ** The DMRS mask: density *)

Lemma sum_over_map {A B} (f : B -> Z) (h : A -> B) (l : list A) :
  sum_over f (map h l) = sum_over (fun x => f (h x)) l.
Proof. induction l as [|x l IH]; simpl; [done|]. by rewrite IH. Qed.

Lemma sum_over_ext {A} (f h : A -> Z) (l : list A) :
  (forall x, In x l -> f x = h x) -> sum_over f l = sum_over h l.
Proof.
  induction l as [|x l IH]; intros Hext; simpl; [done|].
  rewrite Hext by (by left). rewrite IH; [done|].
  intros y Hy. apply Hext. by right.
Qed.

Lemma sum_over_const_mul {A} (f : A -> Z) (b : A -> bool) (k : Z) (l : list A) :
  sum_over (fun x => if b x then k else 0) l
  = k * sum_over (fun x => if b x then 1 else 0) l.
Proof.
  induction l as [|x l IH]; simpl; [lia|]. rewrite IH. destruct (b x); lia.
Qed.

Lemma set_where_zeros P n :
  set_where P 1 (replicate n 0)
  = map (fun j => if P j then 1 else 0) (seq 0 n).
Proof.
  apply list_eq. intros j. rewrite lookup_set_where, list_lookup_fmap.
  destruct (decide (j < n)%nat) as [Hj|Hj].
  - rewrite lookup_replicate_2 by done. by rewrite lookup_seq_lt.
  - rewrite lookup_seq_ge by lia.
    by rewrite (proj1 (lookup_replicate_None n 0 j)) by lia.
Qed.

Lemma dmrs_cell_period ty k i : dmrs_cell ty (12 * k + i) = dmrs_cell ty i.
Proof.
  unfold dmrs_cell.
  replace (Z.of_nat (12 * k + i)) with (12 * Z.of_nat k + Z.of_nat i) by lia.
  assert ((12 * Z.of_nat k + Z.of_nat i) mod 2 = Z.of_nat i mod 2) as ->.
  { replace (12 * Z.of_nat k + Z.of_nat i)
      with (Z.of_nat i + (6 * Z.of_nat k) * 2) by lia.
    by rewrite Z.mod_add. }
  assert ((12 * Z.of_nat k + Z.of_nat i) mod 6 = Z.of_nat i mod 6) as ->.
  { replace (12 * Z.of_nat k + Z.of_nat i)
      with (Z.of_nat i + (2 * Z.of_nat k) * 6) by lia.
    by rewrite Z.mod_add. }
  done.
Qed.

Lemma dmrs_cell_blocks ty k :
  ty = "Type1" \/ ty = "Type2" ->
  sum_over (fun j => if dmrs_cell ty j then 1 else 0) (seq 0 (12 * k))
  = dmrs_per_rb ty * Z.of_nat k.
Proof.
  intros Hty. induction k as [|k IH].
  - simpl. lia.
  - replace (12 * S k)%nat with (12 * k + 12)%nat by lia.
    rewrite seq_app, sum_over_app, IH. cbn [Nat.add].
    replace (seq (12 * k) 12) with (map (Nat.add (12 * k)) (seq 0 12))
      by (rewrite <- (Nat.add_0_r (12 * k)) at 2; apply (fmap_add_seq (12 * k) 0 12)).
    rewrite sum_over_map.
    rewrite (sum_over_ext _ (fun i => if dmrs_cell ty i then 1 else 0))
      by (intros i _; by rewrite dmrs_cell_period).
    destruct Hty as [-> | ->]; vm_compute (sum_over _ (seq 0 12));
      vm_compute (dmrs_per_rb _); lia.
Qed.

Lemma dmrs_row_count ty num_rbs :
  0 <= num_rbs -> ty = "Type1" \/ ty = "Type2" ->
  sum_over (fun x => if x =? 1 then 1 else 0) (dmrs_row ty (num_rbs * 12))
  = dmrs_per_rb ty * num_rbs.
Proof.
  intros Hrbs Hty. unfold dmrs_row, zero_row.
  rewrite (set_where_ext _ (dmrs_cell ty)).
  - rewrite set_where_zeros, sum_over_map.
    rewrite (sum_over_ext _ (fun j => if dmrs_cell ty j then 1 else 0))
      by (intros j _; by destruct (dmrs_cell ty j)).
    replace (Z.to_nat (num_rbs * 12)) with (12 * Z.to_nat num_rbs)%nat by lia.
    rewrite dmrs_cell_blocks by done. by rewrite Z2Nat.id by lia.
  - intros j Hj. rewrite length_replicate in Hj.
    pose proof (dmrs_row_lookup ty num_rbs j Hty ltac:(lia)) as Hrow.
    unfold dmrs_row in Hrow. rewrite lookup_set_where in Hrow.
    unfold zero_row in Hrow. rewrite lookup_replicate_2 in Hrow by lia.
    simpl in Hrow. injection Hrow as Hrow.
    destruct (dmrs_row_mask ty (num_rbs * 12) j), (dmrs_cell ty j);
      try done; discriminate.
Qed.

Lemma sum_over_single (x : Z) n : forall a,
  sum_over (fun r => if x =? Z.of_nat r then 1 else 0) (seq a n)
  = if (Z.of_nat a <=? x) && (x <? Z.of_nat (a + n)) then 1 else 0.
Proof.
  induction n as [|n IH]; intros a; cbn [seq sum_over foldr].
  - destruct (Z.leb_spec (Z.of_nat a) x), (Z.ltb_spec x (Z.of_nat (a + 0)));
      simpl; lia.
  - fold (sum_over (fun r => if x =? Z.of_nat r then 1 else 0) (seq (S a) n)).
    rewrite IH.
    destruct (Z.eqb_spec x (Z.of_nat a)),
      (Z.leb_spec (Z.of_nat (S a)) x), (Z.ltb_spec x (Z.of_nat (S a + n))),
      (Z.leb_spec (Z.of_nat a) x), (Z.ltb_spec x (Z.of_nat (a + S n)));
      simpl; lia.
Qed.

(** X6: the mask holds 6 ones per resource block for Type1 and 4 for Type2
    in each symbol row the positions mark, and none elsewhere; a single
    accepted position marks exactly one row. *)
Theorem create_dmrs_pattern_density num_rbs num_symbols ty positions :
  0 <= num_rbs -> 0 <= num_symbols ->
  ty = "Type1" \/ ty = "Type2" ->
  Forall (fun p => - num_symbols <= p) positions ->
  (exists g, create_dmrs_pattern num_rbs num_symbols ty positions = Ok g /\
     count_eq 1 g
     = dmrs_per_rb ty * num_rbs * marked_rows num_symbols positions) /\
  (forall p, - num_symbols <= p < num_symbols ->
     marked_rows num_symbols [p] = 1).
Proof.
  intros Hrbs Hns Hty Hps. split.
  - destruct (create_dmrs_pattern_rows num_rbs num_symbols ty positions
                Hrbs Hns Hps) as (g & Hg & Hlen & Hrows).
    exists g. split; [done|].
    assert (g = map (fun r => if selects num_symbols positions r
                              then dmrs_row ty (num_rbs * 12)
                              else zero_row (num_rbs * 12))
                    (seq 0 (Z.to_nat num_symbols))) as ->.
    { apply list_eq. intros r. rewrite list_lookup_fmap.
      destruct (decide (r < Z.to_nat num_symbols)%nat) as [Hr|Hr].
      - rewrite Hrows by done. by rewrite lookup_seq_lt.
      - rewrite lookup_seq_ge by lia. by rewrite lookup_ge_None_2 by lia. }
    unfold count_eq, marked_rows. rewrite sum_over_map.
    rewrite (sum_over_ext _
               (fun r => if selects num_symbols positions r
                         then dmrs_per_rb ty * num_rbs else 0)).
    + rewrite (sum_over_const_mul (fun _ => 0)). lia.
    + intros r _. destruct (selects num_symbols positions r).
      * by apply dmrs_row_count.
      * unfold zero_row. rewrite sum_over_replicate. simpl. lia.
  - intros p Hp. unfold marked_rows.
    rewrite (sum_over_ext _
               (fun r => if row_of_position num_symbols p =? Z.of_nat r
                         then 1 else 0)).
    + rewrite sum_over_single. unfold row_of_position.
      destruct (Z.ltb_spec p 0).
      * destruct (Z.leb_spec (Z.of_nat 0) (num_symbols + p)),
          (Z.ltb_spec (num_symbols + p) (Z.of_nat (0 + Z.to_nat num_symbols)));
          simpl; lia.
      * destruct (Z.leb_spec (Z.of_nat 0) p),
          (Z.ltb_spec p (Z.of_nat (0 + Z.to_nat num_symbols)));
          simpl; lia.
    + intros r _. unfold selects. simpl.
      replace (p <? num_symbols) with true by lia.
      by rewrite orb_false_r.
Qed.

Lemma create_dmrs_pattern_density_witness :
  exists g, create_dmrs_pattern 52 14 "Type1" [2; 11] = Ok g /\
    count_eq 1 g = 6 * 52 * marked_rows 14 [2; 11].
Proof.
  destruct (create_dmrs_pattern_density 52 14 "Type1" [2; 11])
    as [(g & Hg & Hcount) _].
  - lia.
  - lia.
  - left. reflexivity.
  - repeat constructor; lia.
  - exists g. split; [exact Hg | exact Hcount].
Defined.

(** ** The resource grid: layers that are switched off *)

Lemma sum_over_zero {A} (f : A -> Z) (l : list A) :
  (forall x, In x l -> f x = 0) -> sum_over f l = 0.
Proof.
  induction l as [|x l IH]; intros Hz; simpl; [done|].
  rewrite Hz by (by left). rewrite IH; [done|].
  intros y Hy. apply Hz. by right.
Qed.

Lemma count_eq_absent n m v (g : grid) :
  has_shape n m g ->
  (forall r c, (r < n)%nat -> (c < m)%nat -> cell g r c <> Some v) ->
  count_eq v g = 0.
Proof.
  intros [Hn Hrows] Habsent. unfold count_eq.
  apply sum_over_zero. intros row Hrow.
  apply list_elem_of_In, list_elem_of_lookup in Hrow as [r Hr].
  apply sum_over_zero. intros x Hx.
  apply list_elem_of_In, list_elem_of_lookup in Hx as [c Hc].
  rewrite Forall_lookup in Hrows.
  pose proof (lookup_lt_Some _ _ _ Hr) as Hrn.
  pose proof (lookup_lt_Some _ _ _ Hc) as Hcm.
  rewrite (Hrows _ _ Hr) in Hcm.
  destruct (Z.eqb_spec x v) as [->|Hne]; [|done].
  exfalso. apply (Habsent r c); [lia | done |].
  unfold cell. by rewrite Hr.
Qed.

(** X7: a layer that is switched off leaves no cell of its class in the
    grid, and with the PDSCH fill switched on no cell stays empty. *)
Theorem resource_grid_disabled_layers num_rbs num_symbols
    (show_dmrs show_pdcch show_pdsch : bool) dmrs_type dmrs_symbols
    coreset_duration :
  0 <= num_rbs -> 0 <= num_symbols ->
  Forall (fun p => - num_symbols <= p) dmrs_symbols ->
  exists g,
    resource_grid num_rbs num_symbols show_dmrs show_pdcch show_pdsch
      dmrs_type dmrs_symbols coreset_duration = Ok g /\
    let st := resource_statistics num_rbs num_symbols g in
    (show_pdsch = true -> empty_res st = 0) /\
    (show_pdsch = false -> pdsch_res st = 0) /\
    (show_pdcch = false -> pdcch_res st = 0) /\
    (show_dmrs = false -> dmrs_res st = 0).
Proof.
  intros Hrbs Hns Hps.
  destruct (resource_grid_cells num_rbs num_symbols show_dmrs show_pdcch
              show_pdsch dmrs_type dmrs_symbols coreset_duration Hrbs Hns Hps)
    as (g & pdcch & dmrs & Hg & _ & _ & Hshape & Hcells).
  exists g. split; [done|].
  cbn [resource_statistics empty_res pdsch_res pdcch_res dmrs_res].
  repeat split; intros Hflag;
    apply (count_eq_absent _ _ _ g Hshape); intros r c Hr Hc;
    rewrite (Hcells r c Hr Hc);
    destruct show_dmrs, show_pdcch, show_pdsch,
      (covers dmrs r c), (covers pdcch r c); simpl; congruence.
Qed.

Lemma resource_grid_disabled_layers_witness :
  exists g, resource_grid 1 4 true false true "Type1" [2] 2 = Ok g /\
    count_eq 0 g = 0 /\ count_eq 2 g = 0.
Proof.
  destruct (resource_grid_disabled_layers 1 4 true false true "Type1" [2] 2)
    as (g & Hg & Hempty & _ & Hpdcch & _).
  - lia.
  - lia.
  - repeat constructor; lia.
  - exists g. split; [exact Hg|].
    split; [by apply Hempty | by apply Hpdcch].
Defined.

(** ** The TDD block: what is drawn, and the percentages *)

Lemma pattern_body_no_flexible dl dls ul uls :
  Forall (fun s => s <> "F") (pattern_body dl dls ul uls).
Proof.
  unfold pattern_body. rewrite !Forall_app. repeat split.
  - by apply Forall_replicate.
  - destruct (has_partial dls uls); repeat constructor. discriminate.
  - by apply Forall_replicate.
Qed.

(** X8: for a non-negative slot count the pattern that is drawn and printed
    has exactly that many entries; when the configured D, X and U slots
    already reach the count, it is their first slots_in_period entries, with
    no F, and the excess is cut off. *)
Theorem shown_pattern_length p d dl dls ul uls :
  ~ (d == 0)%Q -> 0 <= int_of_float (p / d) ->
  exists st, synthesize_tdd p d dl dls ul uls = Ok st /\
    Z.of_nat (length (shown_pattern st)) = slots_in_period st /\
    (slots_in_period st <= Z.of_nat (length (pattern_body dl dls ul uls)) ->
       shown_pattern st
       = take (Z.to_nat (slots_in_period st)) (pattern_body dl dls ul uls) /\
       Forall (fun s => s <> "F") (shown_pattern st)).
Proof.
  intros Hd Hslots. eexists.
  split; [apply (synthesize_tdd_closed p d dl dls ul uls Hd)|].
  unfold shown_pattern, slice_to. cbn [slots_in_period slot_pattern].
  set (n := int_of_float (p / d)) in *.
  replace (0 <=? n) with true by lia.
  pose proof (pattern_layout_length n dl dls ul uls) as Hlen.
  split.
  - rewrite length_take. lia.
  - intros Hover. unfold pattern_layout. cbn zeta.
    replace (Z.to_nat (n - Z.of_nat (length (pattern_body dl dls ul uls))))
      with 0%nat by lia.
    cbn [replicate]. rewrite app_nil_r. split; [done|].
    apply Forall_take, pattern_body_no_flexible.
Qed.

Lemma shown_pattern_length_witness :
  exists st, synthesize_tdd (5 # 2) (1 # 2) 7 10 2 2 = Ok st /\
    shown_pattern st = ["D"; "D"; "D"; "D"; "D"].
Proof.
  destruct (shown_pattern_length (5 # 2) (1 # 2) 7 10 2 2)
    as (st & Hst & _ & Hcut).
  - vm_compute. congruence.
  - vm_compute. congruence.
  - exists st. split; [exact Hst|].
    vm_compute in Hst. injection Hst as <-.
    apply (proj1 (Hcut ltac:(vm_compute; congruence))).
Defined.

Lemma int_of_float_small (p d : Q) :
  (0 <= p)%Q -> (p < d)%Q -> int_of_float (p / d) = 0.
Proof.
  destruct p as [n dp], d as [m dd]. unfold Qle, Qlt. simpl. intros Hn Hlt.
  assert (0 < m) as Hm by nia.
  destruct m as [|m|m]; try lia.
  unfold int_of_float, Qdiv, Qmult, Qinv. simpl.
  apply Z.quot_small. nia.
Qed.

(** X9: when the period is shorter than one slot (0.5 ms at 15 kHz, say)
    the slot count truncates to 0: the pattern code still returns the
    configured D, X and U slots, unpadded, and the block then raises
    ZeroDivisionError at the percentages. *)
Theorem tdd_configuration_zero_slots p dl dls ul uls scs params :
  get_slot_params scs = Ok params ->
  (0 <= p)%Q -> (p < slot_duration_ms params)%Q ->
  (exists st,
     synthesize_tdd p (slot_duration_ms params) dl dls ul uls = Ok st /\
     slots_in_period st = 0 /\
     slot_pattern st = pattern_body dl dls ul uls /\
     shown_pattern st = []) /\
  tdd_configuration p dl dls ul uls scs = Raise ZeroDivisionError.
Proof.
  intros Hparams Hp Hlt.
  assert (~ (slot_duration_ms params == 0)%Q) as Hd.
  { intros Hz. rewrite Hz in Hlt. apply Qle_not_lt in Hp. contradiction. }
  pose proof (int_of_float_small p (slot_duration_ms params) Hp Hlt) as Hzero.
  pose proof (synthesize_tdd_closed p (slot_duration_ms params) dl dls ul uls Hd)
    as Hsyn.
  rewrite Hzero in Hsyn.
  assert (pattern_layout 0 dl dls ul uls = pattern_body dl dls ul uls) as Hlay.
  { unfold pattern_layout. cbn zeta.
    replace (Z.to_nat (0 - Z.of_nat (length (pattern_body dl dls ul uls))))
      with 0%nat by lia.
    apply app_nil_r. }
  split.
  - eexists. split; [exact Hsyn|]. cbn [slots_in_period slot_pattern].
    split; [done|]. split; [exact Hlay|]. done.
  - unfold tdd_configuration. rewrite Hparams. cbn [mbind result_bind].
    rewrite Hsyn. cbn [mbind result_bind slots_in_period]. done.
Qed.

Lemma tdd_configuration_zero_slots_witness :
  tdd_configuration (1 # 2) 7 10 2 2 15 = Raise ZeroDivisionError.
Proof.
  refine (proj2 (tdd_configuration_zero_slots (1 # 2) 7 10 2 2 15 _ _ _ _)).
  - reflexivity.
  - vm_compute. congruence.
  - vm_compute. reflexivity.
Defined.
